(** * Bollinger-band regime analysis of a daily price series

    A shallow embedding of the two analysis scripts of the repository,
    [test-zhongxinjinshu-history.py] (module [History]) and
    [test-zhongxinjinshu.py] (module [Realtime]).

    The scripts work on numpy [float64] arrays ([df.close.values] and the
    three arrays returned by [BOLL]); a scalar taken out of such an array is
    a [numpy.float64].  They are modelled by Rocq's primitive binary64
    floats: the arithmetic and the comparisons are the IEEE 754 ones, a
    comparison with a NaN is [false], and a division by zero produces an
    infinity or a NaN (numpy emits a warning there and raises nothing).
    What can raise is indexing ([IndexError]) and the element-wise
    combination of arrays of incompatible lengths ([ValueError]); both are
    kept, in an error monad.  The [print] calls are abstracted to the
    structured value they render: every printed alternative is a
    constructor, carrying the numbers the f-string formats. *)

From Stdlib Require Import Floats ZArith List Bool Lia.
Import ListNotations.
Set Warnings "-inexact-float".

(** ** Python comparison operators on [float64] *)

Notation "x >? y" := (PrimFloat.ltb y x)
  (at level 70, no associativity, only parsing) : float_scope.
Notation "x >=? y" := (PrimFloat.leb y x)
  (at level 70, no associativity, only parsing) : float_scope.

(** ** Exceptions and 1-D arrays *)

Module Np.

Inductive exn : Set := IndexError | ValueError.

Inductive result (A : Type) : Type :=
| Ok (a : A)
| Raise (e : exn).
Arguments Ok {A} a.
Arguments Raise {A} e.

Definition bind {A B : Type} (m : result A) (k : A -> result B) : result B :=
  match m with
  | Ok a => k a
  | Raise e => Raise e
  end.

Definition ndarray : Type := list float.

(** [len(a)] *)
Definition len {A : Type} (a : list A) : Z := Z.of_nat (length a).

(** [a[i]] for a Python integer [i]: a negative index counts from the end,
    an index outside the array raises [IndexError]. *)
Definition getitem {A : Type} (a : list A) (i : Z) : result A :=
  let j := if (i <? 0)%Z then (i + len a)%Z else i in
  if ((j <? 0)%Z || (len a <=? j)%Z)%bool then Raise IndexError
  else match nth_error a (Z.to_nat j) with
       | Some x => Ok x
       | None => Raise IndexError
       end.

(** [a[-k:]]: the last [k] elements, the whole array when it has fewer. *)
Definition last_k {A : Type} (k : nat) (a : list A) : list A :=
  skipn (length a - k) a.

Definition map2 {A B C : Type} (f : A -> B -> C) (a : list A) (b : list B) : list C :=
  map (fun p => f (fst p) (snd p)) (combine a b).

(** A binary element-wise operation on two 1-D arrays, with numpy's
    broadcasting: equal lengths pair up, a one-element array is stretched,
    anything else raises [ValueError]. *)
Definition ufunc {A B C : Type} (f : A -> B -> C) (a : list A) (b : list B)
  : result (list C) :=
  if (length a =? length b)%nat then Ok (map2 f a b)
  else match a, b with
       | [x], _ => Ok (map (f x) b)
       | _, [y] => Ok (map (fun x => f x y) a)
       | _, _ => Raise ValueError
       end.

(** [sum] of a boolean array: the number of [True] entries. *)
Definition count_true (bs : list bool) : nat :=
  length (filter (fun b => b) bs).

End Np.

Import Np.

Notation "x <- m ;; k" := (bind m (fun x => k))
  (at level 61, m at next level, right associativity).
Notation "a .[ i ]" := (getitem a i%Z) (at level 1, left associativity,
  format "a .[ i ]").

(** ** The band calculator *)

Module MyTT.

Local Open Scope float_scope.

Definition float_of_nat (n : nat) : float :=
  of_uint63 (Uint63.of_Z (Z.of_nat n)).

Definition fsum (xs : list float) : float := fold_left add xs 0.

Definition mean (xs : list float) : float := fsum xs / float_of_nat (length xs).

(** population standard deviation *)
Definition pstdev (xs : list float) : float :=
  let mu := mean xs in
  sqrt (mean (map (fun x => (x - mu) * (x - mu)) xs)).

(** elements [i-W+1 .. i] *)
Definition window (W i : nat) (S : list float) : list float :=
  firstn W (skipn (i + 1 - W) S).

Definition rolling (stat : list float -> float) (S : list float) (W : nat) : list float :=
  map (fun i => if (W - 1 <=? i)%nat then stat (window W i S) else nan)
      (seq 0 (length S)).

(** Modelled from the spec: [MA] of the MyTT library is imported by the
    scripts ([from MyTT import *]) and is not among the source files.
    Section 4.1: index [i] holds the arithmetic mean of the elements
    [i-W+1 .. i] when [i >= W-1] and is undefined (NaN) before. *)
Definition MA (S : list float) (W : nat) : list float := rolling mean S W.

(** Modelled from the spec: the rolling population standard deviation of
    section 4.2 (MyTT's [STD]), same window and same undefined policy. *)
Definition STD (S : list float) (W : nat) : list float := rolling pstdev S W.

(** Modelled from the spec: [BOLL] of the MyTT library is not among the
    source files.  Section 4.2: the middle band is the moving average, the
    upper and lower bands lie [K] standard deviations above and below it;
    the scripts call it with the defaults, window 20 and multiplier 2. *)
Definition BOLL_with (W : nat) (K : float) (CLOSE : list float)
  : list float * list float * list float :=
  let middle := MA CLOSE W in
  let sd := STD CLOSE W in
  (map2 (fun m s => m + K * s) middle sd,
   middle,
   map2 (fun m s => m - K * s) middle sd).

Definition BOLL (CLOSE : list float) : list float * list float * list float :=
  BOLL_with 20 2 CLOSE.

End MyTT.

(** ** The messages both scripts print for the regime *)

(** The four position messages. *)
Inductive region : Set :=
| AboveUpper   (* overbought, above the upper band *)
| UpperHalf    (* between the middle and the upper band *)
| LowerHalf    (* between the lower and the middle band *)
| BelowLower.  (* oversold, below the lower band *)

(** The three band-width messages. *)
Inductive width_trend : Set := Expanding | Contracting | Stable.

(** The three midline messages. *)
Inductive slope : Set := Rising | Falling | Flat.

(** ** [test-zhongxinjinshu-history.py] *)

Module History.

Local Open Scope float_scope.

(** *** The regime snapshot (script lines 21-67) *)

(** Lines 36-43. *)
Definition position (current_price current_up current_mid current_lower : float)
  : region :=
  if current_price >? current_up then AboveUpper
  else if current_price >? current_mid then UpperHalf
  else if current_price >? current_lower then LowerHalf
  else BelowLower.

(** Lines 51-56. *)
Definition trend (current_width prev_width : float) : width_trend :=
  if current_width >? prev_width * 1.05 then Expanding
  else if current_width <? prev_width * 0.95 then Contracting
  else Stable.

(** [boll_width = (up - lower) / mid], an array (line 47). *)
Definition boll_width (up mid lower : ndarray) : result ndarray :=
  d <- ufunc sub up lower ;;
  ufunc div d mid.

(** [boll_width[-5] if len(boll_width) >= 5 else boll_width[0]] (line 49) *)
Definition prev_width (boll_width : ndarray) : result float :=
  if (5 <=? len boll_width)%Z then boll_width.[-5] else boll_width.[0].

(** [mid[-1] - mid[-5] if len(mid) >= 5 else 0] (line 60) *)
Definition mid_slope (mid : ndarray) : result float :=
  if (5 <=? len mid)%Z then
    a <- mid.[-1] ;; b <- mid.[-5] ;; Ok (a - b)
  else Ok 0.

(** Lines 61-66. *)
Definition mid_trend (mid_slope : float) : slope :=
  if mid_slope >? 0 then Rising
  else if mid_slope <? 0 then Falling
  else Flat.

(** *** The trading signals (script lines 69-142) *)

(** The six percent-B buckets of lines 97-108. *)
Inductive bucket : Set :=
| NearUpper | StrongZone | NeutralStrong | NeutralWeak | WeakZone | NearLower.

(** Every string the script appends to [signals]. *)
Inductive signal : Set :=
| UpperBreakout
| UpperRejection
| LowerBreakdown
| LowerRebound
| MidBullish
| MidBearish
| Positional (b : bucket) (percent_b : float)
| WidthExpanding
| WidthContracting
| StrongContinuation (days_above : nat)
| WeakContinuation (days_below : nat).

(** The four advice lines of lines 135-142. *)
Inductive advice : Set :=
| ReduceExposure   (* holders consider reducing, the flat stay out *)
| WatchRebound     (* watch for a rebound, a light long is possible *)
| RangeBound       (* range market: sell high, buy low, or wait *)
| FollowTrend.     (* follow the trend: long above the midline, short below *)

(** Lines 78-85: the upper and lower band crossings, one if/elif chain. *)
Definition band_crossing
  (prev_price prev_up prev_lower current_price current_up current_lower : float)
  (signals : list signal) : list signal :=
  if (prev_price <=? prev_up) && (current_price >? current_up)
  then signals ++ [UpperBreakout]
  else if (prev_price >=? prev_up) && (current_price <? current_up)
  then signals ++ [UpperRejection]
  else if (prev_price >=? prev_lower) && (current_price <? current_lower)
  then signals ++ [LowerBreakdown]
  else if (prev_price <=? prev_lower) && (current_price >? current_lower)
  then signals ++ [LowerRebound]
  else signals.

(** Lines 88-91: the midline crossings, a second if/elif chain. *)
Definition mid_crossing (prev_price prev_mid current_price current_mid : float)
  (signals : list signal) : list signal :=
  if (prev_price <=? prev_mid) && (current_price >? current_mid)
  then signals ++ [MidBullish]
  else if (prev_price >=? prev_mid) && (current_price <? current_mid)
  then signals ++ [MidBearish]
  else signals.

(** Lines 77-91: [signals = []], then the two chains in turn. *)
Definition crossing_signals
  (prev_price prev_up prev_mid prev_lower
   current_price current_up current_mid current_lower : float) : list signal :=
  let signals := [] in
  let signals :=
    band_crossing prev_price prev_up prev_lower
                  current_price current_up current_lower signals in
  mid_crossing prev_price prev_mid current_price current_mid signals.

(** Line 94. *)
Definition percent_b (current_price current_up current_lower : float) : float :=
  (current_price - current_lower) / (current_up - current_lower).

Definition bucket_of (percent_b : float) : bucket :=
  if percent_b >? 0.9 then NearUpper
  else if percent_b >? 0.7 then StrongZone
  else if percent_b >? 0.5 then NeutralStrong
  else if percent_b >? 0.3 then NeutralWeak
  else if percent_b >? 0.1 then WeakZone
  else NearLower.

(** Lines 96-108: [if not signals:] one bucket message is appended. *)
Definition positional (percent_b : float) (signals : list signal) : list signal :=
  match signals with
  | [] => signals ++ [Positional (bucket_of percent_b) percent_b]
  | _ :: _ => signals
  end.

(** Lines 111-112; the [1] of the else branch is a Python integer, which
    compares with a float as the float [1.0] does. *)
Definition width_change (current_up current_mid current_lower : float)
  (up mid lower : ndarray) : result float :=
  let boll_width := (current_up - current_lower) / current_mid in
  if (5 <=? len mid)%Z then
    u <- up.[-5] ;; l <- lower.[-5] ;; m <- mid.[-5] ;;
    Ok (boll_width / ((u - l) / m))
  else Ok 1.

(** Lines 114-117. *)
Definition width_signal (width_change : float) (signals : list signal)
  : list signal :=
  if width_change >? 1.1 then signals ++ [WidthExpanding]
  else if width_change <? 0.9 then signals ++ [WidthContracting]
  else signals.

(** Line 120: [sum(CLOSE[-5:] > mid[-5:])]. *)
Definition above_mid (CLOSE mid : ndarray) : result nat :=
  gt <- ufunc (fun c m => c >? m) (last_k 5 CLOSE) (last_k 5 mid) ;;
  Ok (count_true gt).

(** Lines 121-124; the messages print [above_mid] and [5-above_mid]. *)
Definition persistence (above_mid : nat) (signals : list signal) : list signal :=
  if (4 <=? above_mid)%nat then signals ++ [StrongContinuation above_mid]
  else if (above_mid <=? 1)%nat then signals ++ [WeakContinuation (5 - above_mid)]
  else signals.

(** Lines 135-142. *)
Definition advise (percent_b width_change : float) : advice :=
  if (percent_b >? 0.9) && (width_change >? 1.05) then ReduceExposure
  else if (percent_b <? 0.1) && (width_change >? 1.05) then WatchRebound
  else if ((0.3 <? percent_b) && (percent_b <? 0.7)) && (width_change <? 0.9)
  then RangeBound
  else FollowTrend.

(** Lines 127-131: the signals are printed one per line; an empty list
    prints the no-crossing line instead. *)
Inductive line : Set :=
| SignalLine (s : signal)
| NoCrossingLine.

Definition print_signals (signals : list signal) : list line :=
  match signals with
  | [] => [NoCrossingLine]
  | _ :: _ => map SignalLine signals
  end.

(** What the block of lines 72-145 prints: the signal lines followed by one
    advice, or the single data-shortage line of the else branch. *)
Inductive signal_report : Set :=
| Signals (signals : list signal) (advice_line : advice)
| DataShortage.

(** Lines 72-145. *)
Definition trading_signals
  (CLOSE up mid lower : ndarray)
  (current_price current_up current_mid current_lower : float)
  : result signal_report :=
  if (2 <=? len CLOSE)%Z then
    prev_price <- CLOSE.[-2] ;;
    prev_up <- up.[-2] ;; prev_mid <- mid.[-2] ;; prev_lower <- lower.[-2] ;;
    let signals :=
      crossing_signals prev_price prev_up prev_mid prev_lower
                       current_price current_up current_mid current_lower in
    let percent_b := percent_b current_price current_up current_lower in
    let signals := positional percent_b signals in
    width_change <- width_change current_up current_mid current_lower up mid lower ;;
    let signals := width_signal width_change signals in
    above_mid <- above_mid CLOSE mid ;;
    let signals := persistence above_mid signals in
    Ok (Signals signals (advise percent_b width_change))
  else Ok DataShortage.

Record report : Set := {
  rep_price : float;
  rep_up : float;
  rep_mid : float;
  rep_lower : float;
  rep_position : region;
  rep_width : float;
  rep_trend : width_trend;
  rep_mid_trend : slope;
  rep_signals : signal_report
}.

(** The script from line 24 on, given the close prices and the three band
    arrays of line 19, in the order the statements run. *)
Definition main (CLOSE up mid lower : ndarray) : result report :=
  current_price <- CLOSE.[-1] ;;
  current_up <- up.[-1] ;;
  current_mid <- mid.[-1] ;;
  current_lower <- lower.[-1] ;;
  let position := position current_price current_up current_mid current_lower in
  boll_width <- boll_width up mid lower ;;
  current_width <- boll_width.[-1] ;;
  prev_width <- prev_width boll_width ;;
  let trend := trend current_width prev_width in
  mid_slope <- mid_slope mid ;;
  let mid_trend := mid_trend mid_slope in
  sr <- trading_signals CLOSE up mid lower
          current_price current_up current_mid current_lower ;;
  Ok {| rep_price := current_price; rep_up := current_up;
        rep_mid := current_mid; rep_lower := current_lower;
        rep_position := position; rep_width := current_width;
        rep_trend := trend; rep_mid_trend := mid_trend;
        rep_signals := sr |}.

(** Lines 14-19 followed by the rest: the bands come from [BOLL]. *)
Definition analyse (CLOSE : ndarray) : result report :=
  let '(up, mid, lower) := MyTT.BOLL CLOSE in
  main CLOSE up mid lower.

End History.

(** ** [test-zhongxinjinshu.py], position and band width (script lines 19-55)

    The statements are the ones of the other script, character for
    character; they are transcribed again so that each script is verified on
    its own text. *)

Module Realtime.

Local Open Scope float_scope.

(** Lines 34-41. *)
Definition position (current_price current_up current_mid current_lower : float)
  : region :=
  if current_price >? current_up then AboveUpper
  else if current_price >? current_mid then UpperHalf
  else if current_price >? current_lower then LowerHalf
  else BelowLower.

(** Line 45. *)
Definition boll_width (up mid lower : ndarray) : result ndarray :=
  d <- ufunc sub up lower ;;
  ufunc div d mid.

(** Line 47. *)
Definition prev_width (boll_width : ndarray) : result float :=
  if (5 <=? len boll_width)%Z then boll_width.[-5] else boll_width.[0].

(** Lines 49-54. *)
Definition trend (current_width prev_width : float) : width_trend :=
  if current_width >? prev_width * 1.05 then Expanding
  else if current_width <? prev_width * 0.95 then Contracting
  else Stable.

(** Lines 44-55: the width and its trend, as the script computes them. *)
Definition width_state (up mid lower : ndarray) : result (float * width_trend) :=
  boll_width <- boll_width up mid lower ;;
  current_width <- boll_width.[-1] ;;
  prev_width <- prev_width boll_width ;;
  Ok (current_width, trend current_width prev_width).

(** Line 58. *)
Definition mid_slope (mid : ndarray) : result float :=
  if (5 <=? len mid)%Z then
    a <- mid.[-1] ;; b <- mid.[-5] ;; Ok (a - b)
  else Ok 0.

(** Lines 59-64. *)
Definition mid_trend (mid_slope : float) : slope :=
  if mid_slope >? 0 then Rising
  else if mid_slope <? 0 then Falling
  else Flat.

(** The five lines of section A (lines 75-84). *)
Inductive band_line : Set :=
| BreakUp       (* broke through the upper band *)
| FallBack      (* fell back from the upper band *)
| BreakDown     (* broke below the lower band *)
| Rebound       (* rebounded from the lower band *)
| NoCrossing.   (* no crossing signal *)

(** Lines 75-84: the previous close is compared with the current bands. *)
Definition band_signal (prev_price current_price current_up current_lower : float)
  : band_line :=
  if (prev_price <=? current_up) && (current_price >? current_up) then BreakUp
  else if (prev_price >=? current_up) && (current_price <? current_up) then FallBack
  else if (prev_price >=? current_lower) && (current_price <? current_lower)
  then BreakDown
  else if (prev_price <=? current_lower) && (current_price >? current_lower)
  then Rebound
  else NoCrossing.

(** The four lines of section B (lines 88-96). *)
Inductive mid_line : Set :=
| CrossUp       (* crossed above the midline, buy reference *)
| CrossDown     (* fell below the midline, sell reference *)
| AboveMid      (* running above the midline *)
| BelowMid.     (* running below the midline *)

(** Lines 88-96. *)
Definition mid_signal (prev_price prev_mid current_price current_mid : float)
  : mid_line :=
  if (prev_price <=? prev_mid) && (current_price >? current_mid) then CrossUp
  else if (prev_price >=? prev_mid) && (current_price <? current_mid) then CrossDown
  else if current_price >? current_mid then AboveMid
  else BelowMid.

(** The three lines of section C (lines 100-105). *)
Inductive extreme_line : Set :=
| NearUpperAlert                    (* close to the upper band *)
| NearLowerAlert                    (* close to the lower band *)
| PositionEval (percent_b : float). (* the percent-B position *)

(** Line 99. *)
Definition percent_b (current_price current_up current_lower : float) : float :=
  (current_price - current_lower) / (current_up - current_lower).

(** Lines 100-105. *)
Definition extreme_signal (percent_b : float) : extreme_line :=
  if percent_b >? 0.95 then NearUpperAlert
  else if percent_b <? 0.05 then NearLowerAlert
  else PositionEval percent_b.

(** What lines 71-108 print: one line per section, or the data-shortage
    line. *)
Inductive signal_report : Set :=
| Signals (a : band_line) (b : mid_line) (c : extreme_line)
| DataShortage.

(** Lines 71-108. *)
Definition trading_signals (CLOSE mid : ndarray)
  (current_price current_up current_mid current_lower : float)
  : result signal_report :=
  if (2 <=? len CLOSE)%Z then
    prev_price <- CLOSE.[-2] ;;
    let a := band_signal prev_price current_price current_up current_lower in
    prev_mid <- mid.[-2] ;;
    let b := mid_signal prev_price prev_mid current_price current_mid in
    let percent_b := percent_b current_price current_up current_lower in
    Ok (Signals a b (extreme_signal percent_b))
  else Ok DataShortage.

Record report : Set := {
  rep_position : region;
  rep_width : float;
  rep_trend : width_trend;
  rep_mid_trend : slope;
  rep_signals : signal_report
}.

(** The script from line 22 on, given the closes and the band arrays of
    line 17, in the order the statements run. *)
Definition main (CLOSE up mid lower : ndarray) : result report :=
  current_price <- CLOSE.[-1] ;;
  current_up <- up.[-1] ;;
  current_mid <- mid.[-1] ;;
  current_lower <- lower.[-1] ;;
  let position := position current_price current_up current_mid current_lower in
  ws <- width_state up mid lower ;;
  mid_slope <- mid_slope mid ;;
  let mid_trend := mid_trend mid_slope in
  sr <- trading_signals CLOSE mid
          current_price current_up current_mid current_lower ;;
  Ok {| rep_position := position; rep_width := fst ws; rep_trend := snd ws;
        rep_mid_trend := mid_trend; rep_signals := sr |}.

End Realtime.

(** ** The specification's own wording, for comparison with the scripts *)

Module Spec.

Import History.
Local Open Scope float_scope.

Definition is_crossing (s : signal) : bool :=
  match s with
  | UpperBreakout | UpperRejection | LowerBreakdown | LowerRebound
  | MidBullish | MidBearish => true
  | _ => false
  end.

Definition is_positional (s : signal) : bool :=
  match s with
  | Positional _ _ => true
  | _ => false
  end.

Definition is_width (s : signal) : bool :=
  match s with
  | WidthExpanding | WidthContracting => true
  | _ => false
  end.

Definition is_persistence (s : signal) : bool :=
  match s with
  | StrongContinuation _ | WeakContinuation _ => true
  | _ => false
  end.

(** Section 4.6: the condition of each of the six crossing checks. *)
Definition crossing_condition (s : signal)
  (prev prevUpper prevMid prevLower current currentUpper currentMid currentLower : float)
  : bool :=
  match s with
  | UpperBreakout => (prev <=? prevUpper) && (current >? currentUpper)
  | UpperRejection => (prev >=? prevUpper) && (current <? currentUpper)
  | LowerBreakdown => (prev >=? prevLower) && (current <? currentLower)
  | LowerRebound => (prev <=? prevLower) && (current >? currentLower)
  | MidBullish => (prev <=? prevMid) && (current >? currentMid)
  | MidBearish => (prev >=? prevMid) && (current <? currentMid)
  | _ => false
  end.

(** Section 4.6, "all six checks run independently": each crossing signal
    is emitted exactly when its own condition holds. *)
Definition checks_independent
  (prev prevUpper prevMid prevLower current currentUpper currentMid currentLower : float)
  : Prop :=
  forall s : signal, is_crossing s = true ->
    (In s (crossing_signals prev prevUpper prevMid prevLower
                            current currentUpper currentMid currentLower)
     <-> crossing_condition s prev prevUpper prevMid prevLower
                              current currentUpper currentMid currentLower = true).

(** Section 4.3: the condition of each region. *)
Definition region_condition (r : region) (price upper middle lower : float) : bool :=
  match r with
  | AboveUpper => price >? upper
  | UpperHalf => (upper >=? price) && (price >? middle)
  | LowerHalf => (middle >=? price) && (price >? lower)
  | BelowLower => price <=? lower
  end.

(** Section 4.3, "evaluated in strict descending order": the first region
    of the list whose condition holds, if any. *)
Definition first_region (price upper middle lower : float) : option region :=
  find (fun r => region_condition r price upper middle lower)
       [AboveUpper; UpperHalf; LowerHalf; BelowLower].

(** Section 4.8: the rule table, rules 1 to 3; rule 4 is the default. *)
Definition advisory_rules : list ((float -> float -> bool) * advice) :=
  [ (fun percentB widthRatio => (percentB >? 0.9) && (widthRatio >? 1.05),
     ReduceExposure);
    (fun percentB widthRatio => (percentB <? 0.1) && (widthRatio >? 1.05),
     WatchRebound);
    (fun percentB widthRatio =>
       ((0.3 <? percentB) && (percentB <? 0.7)) && (widthRatio <? 0.9),
     RangeBound) ].

(** top-to-bottom, first match wins *)
Definition first_match {A : Type} (rules : list ((float -> float -> bool) * A))
  (otherwise : A) (percentB widthRatio : float) : A :=
  match find (fun rule => fst rule percentB widthRatio) rules with
  | Some rule => snd rule
  | None => otherwise
  end.

(** Section 4.5: the width at the latest index against the width [L = 5]
    indices earlier, the earliest index when fewer than [L+1] points exist;
    the ratio of the two is classified. *)
Definition lookback : nat := 5.

Definition lookback_index (n : nat) : nat :=
  if (lookback + 1 <=? n)%nat then (n - 1 - lookback)%nat else 0%nat.

Definition width_trend_of (width : ndarray) : width_trend :=
  let ratio := nth (length width - 1) width nan
               / nth (lookback_index (length width)) width nan in
  if ratio >? 1.05 then Expanding
  else if ratio <? 0.95 then Contracting
  else Stable.

(** Section 4.7: how many of the last five closes sit above, and how many
    below, the middle band. *)
Definition closes_above (CLOSE mid : ndarray) : nat :=
  count_true (map2 (fun c m => c >? m) (last_k 5 CLOSE) (last_k 5 mid)).

Definition closes_below (CLOSE mid : ndarray) : nat :=
  count_true (map2 (fun c m => c <? m) (last_k 5 CLOSE) (last_k 5 mid)).

(** Section 4.7: the persistence signal, if any. *)
Inductive persistence_kind : Set := Strong | Weak.

Definition persistence_signal (CLOSE mid : ndarray) : option persistence_kind :=
  if (4 <=? closes_above CLOSE mid)%nat then Some Strong
  else if (4 <=? closes_below CLOSE mid)%nat then Some Weak
  else None.

(** Section 4.8, error condition: no advice of the table is reported. *)
Definition advisory_withheld (r : report) : Prop :=
  forall signals a, rep_signals r <> Signals signals a.

End Spec.

(** ** Vocabulary of the statements *)

(** [a[-k]] of an array that has at least [k] elements. *)
Definition back (k : nat) (a : ndarray) : float := nth (length a - k) a nan.

(** The three band arrays are index-aligned with the closes, as the arrays
    [BOLL(CLOSE)] returns are. *)
Definition aligned (CLOSE up mid lower : ndarray) : Prop :=
  length up = length CLOSE /\ length mid = length CLOSE
  /\ length lower = length CLOSE.

(** The array [(up - lower) / mid] of aligned bands. *)
Definition widths (up mid lower : ndarray) : ndarray :=
  map2 div (map2 sub up lower) mid.

(** The width the scripts compare the latest width with. *)
Definition reference_width (W : ndarray) : float :=
  if (5 <=? length W)%nat then back 5 W else nth 0 W nan.

(** The band width and the width ratio of the signal block, for aligned
    bands. *)
Definition ratio_of (up mid lower : ndarray) : float :=
  if (5 <=? length mid)%nat
  then ((back 1 up - back 1 lower) / back 1 mid)
       / ((back 5 up - back 5 lower) / back 5 mid)
  else 1%float.

(** The midline slope, for a non-empty middle band. *)
Definition slope_of (mid : ndarray) : float :=
  if (5 <=? length mid)%nat then (back 1 mid - back 5 mid)%float else 0%float.

(** The signal list and the advice of the signal block on aligned arrays
    of at least two bars, every index resolved. *)
Definition percent_b_of (CLOSE up lower : ndarray) : float :=
  History.percent_b (back 1 CLOSE) (back 1 up) (back 1 lower).

Definition crossings_of (CLOSE up mid lower : ndarray) : list History.signal :=
  History.crossing_signals
    (back 2 CLOSE) (back 2 up) (back 2 mid) (back 2 lower)
    (back 1 CLOSE) (back 1 up) (back 1 mid) (back 1 lower).

Definition signals_of (CLOSE up mid lower : ndarray) : list History.signal :=
  History.persistence (Spec.closes_above CLOSE mid)
    (History.width_signal (ratio_of up mid lower)
       (History.positional (percent_b_of CLOSE up lower)
          (crossings_of CLOSE up mid lower))).

Definition advice_of (CLOSE up mid lower : ndarray) : History.advice :=
  History.advise (percent_b_of CLOSE up lower) (ratio_of up mid lower).

Definition report_of (CLOSE up mid lower : ndarray) : History.report :=
  let W := widths up mid lower in
  {| History.rep_price := back 1 CLOSE;
     History.rep_up := back 1 up;
     History.rep_mid := back 1 mid;
     History.rep_lower := back 1 lower;
     History.rep_position :=
       History.position (back 1 CLOSE) (back 1 up) (back 1 mid) (back 1 lower);
     History.rep_width := back 1 W;
     History.rep_trend := History.trend (back 1 W) (reference_width W);
     History.rep_mid_trend := History.mid_trend (slope_of mid);
     History.rep_signals :=
       if (2 <=? length CLOSE)%nat
       then History.Signals (signals_of CLOSE up mid lower)
                            (advice_of CLOSE up mid lower)
       else History.DataShortage |}.

(** The order of the six buckets, from the lower band up. *)
Definition bucket_rank (b : History.bucket) : nat :=
  match b with
  | History.NearLower => 0
  | History.WeakZone => 1
  | History.NeutralWeak => 2
  | History.NeutralStrong => 3
  | History.StrongZone => 4
  | History.NearUpper => 5
  end.

(** The order in which the four kinds of signal are appended. *)
Definition signal_rank (s : History.signal) : nat :=
  if Spec.is_crossing s then 0
  else if Spec.is_positional s then 1
  else if Spec.is_width s then 2
  else 3.

(** The signal block of the second script on aligned arrays of at least
    two bars, every index resolved. *)
Definition realtime_signals_of (CLOSE up mid lower : ndarray)
  : Realtime.signal_report :=
  Realtime.Signals
    (Realtime.band_signal (back 2 CLOSE) (back 1 CLOSE) (back 1 up) (back 1 lower))
    (Realtime.mid_signal (back 2 CLOSE) (back 2 mid) (back 1 CLOSE) (back 1 mid))
    (Realtime.extreme_signal
       (Realtime.percent_b (back 1 CLOSE) (back 1 up) (back 1 lower))).

Definition realtime_report_of (CLOSE up mid lower : ndarray) : Realtime.report :=
  let W := widths up mid lower in
  {| Realtime.rep_position :=
       Realtime.position (back 1 CLOSE) (back 1 up) (back 1 mid) (back 1 lower);
     Realtime.rep_width := back 1 W;
     Realtime.rep_trend := Realtime.trend (back 1 W) (reference_width W);
     Realtime.rep_mid_trend := Realtime.mid_trend (slope_of mid);
     Realtime.rep_signals :=
       if (2 <=? length CLOSE)%nat
       then realtime_signals_of CLOSE up mid lower
       else Realtime.DataShortage |}.

(** The message of section A as the signal the first script appends. *)
Definition band_line_signals (a : Realtime.band_line) : list History.signal :=
  match a with
  | Realtime.BreakUp => [History.UpperBreakout]
  | Realtime.FallBack => [History.UpperRejection]
  | Realtime.BreakDown => [History.LowerBreakdown]
  | Realtime.Rebound => [History.LowerRebound]
  | Realtime.NoCrossing => []
  end.

(** The message of section B as the signal the first script appends. *)
Definition mid_line_signals (b : Realtime.mid_line) : list History.signal :=
  match b with
  | Realtime.CrossUp => [History.MidBullish]
  | Realtime.CrossDown => [History.MidBearish]
  | Realtime.AboveMid | Realtime.BelowMid => []
  end.

Module IEEE.

(** A binary64 value other than NaN. *)
Definition defined (s : spec_float) : bool :=
  match s with
  | S754_nan => false
  | _ => true
  end.

Definition zero_or_nan (s : spec_float) : bool :=
  match s with
  | S754_zero _ | S754_nan => true
  | _ => false
  end.

Definition inf_or_nan (s : spec_float) : bool :=
  match s with
  | S754_infinity _ | S754_nan => true
  | _ => false
  end.

Definition positive_finite (s : spec_float) : bool :=
  match s with
  | S754_finite false _ _ => true
  | _ => false
  end.

End IEEE.

(** * Properties *)

(** ** IEEE 754 comparisons and the degenerate quotients *)

Module IEEEFacts.

Import IEEE.
Local Open Scope float_scope.

Lemma SFcompare_antisym (x y : spec_float) :
  SFcompare y x = option_map CompOpp (SFcompare x y).
Proof.
  destruct x as [sx|sx| |sx mx ex], y as [sy|sy| |sy my ey]; simpl;
    try reflexivity; try (destruct sx; reflexivity); try (destruct sy; reflexivity);
    try (destruct sx, sy; reflexivity).
  change (Pos.compare_cont Eq my mx) with (Pos.compare my mx).
  change (Pos.compare_cont Eq mx my) with (Pos.compare mx my).
  rewrite (Z.compare_antisym ex ey), (Pos.compare_antisym mx my).
  destruct sx, sy; simpl; try reflexivity;
    destruct (ex ?= ey)%Z; simpl; try reflexivity;
    destruct (mx ?= my)%positive; reflexivity.
Qed.

Lemma SFcompare_refl (x : spec_float) :
  defined x = true -> SFcompare x x = Some Eq.
Proof.
  destruct x as [s|s| |s m e]; simpl; try easy; intros _.
  - now destruct s.
  - change (Pos.compare_cont Eq m m) with (Pos.compare m m).
    rewrite Z.compare_refl, Pos.compare_refl. now destruct s.
Qed.

Lemma SFcompare_defined (x y : spec_float) :
  defined x = true -> defined y = true -> exists c, SFcompare x y = Some c.
Proof.
  destruct x, y; simpl; intros; try discriminate; eauto.
Qed.

Lemma SFcompare_some (x y : spec_float) (c : comparison) :
  SFcompare x y = Some c -> defined x = true /\ defined y = true.
Proof.
  destruct x, y; simpl; intros; try discriminate; auto.
Qed.

Lemma SFleb_trans (x y z : spec_float) :
  SFleb x y = true -> SFleb y z = true -> SFleb x z = true.
Proof.
  unfold SFleb.
  destruct x as [sx|sx| |sx mx ex], y as [sy|sy| |sy my ey], z as [sz|sz| |sz mz ez];
    simpl; try discriminate; try reflexivity;
    try (destruct sx; simpl; try discriminate; try reflexivity);
    try (destruct sy; simpl; try discriminate; try reflexivity);
    try (destruct sz; simpl; try discriminate; try reflexivity).
  all: change (Pos.compare_cont Eq) with Pos.compare.
  all: destruct (Z.compare_spec ex ey), (Z.compare_spec ey ez), (Z.compare_spec ex ez);
    try discriminate; try reflexivity; try lia; subst.
  all: destruct (Pos.compare_spec mx my), (Pos.compare_spec my mz), (Pos.compare_spec mx mz);
    simpl; try discriminate; try reflexivity; try lia.
Qed.

(** The comparisons of the scripts, through the comparison of the
    specification. *)
Lemma is_nan_spec (x : float) : is_nan x = negb (defined (Prim2SF x)).
Proof.
  unfold is_nan. rewrite FloatAxioms.eqb_spec. unfold SFeqb.
  destruct (defined (Prim2SF x)) eqn:D.
  - now rewrite SFcompare_refl.
  - destruct (Prim2SF x); try discriminate. reflexivity.
Qed.

Lemma ltb_antisym (x y : float) : (x <? y) = true -> (y <? x) = false.
Proof.
  rewrite !FloatAxioms.ltb_spec. unfold SFltb.
  rewrite (SFcompare_antisym (Prim2SF x) (Prim2SF y)).
  destruct (SFcompare (Prim2SF x) (Prim2SF y)) as [[]|]; simpl; congruence.
Qed.

Lemma ltb_leb (x y : float) : (x <? y) = true -> (x <=? y) = true.
Proof.
  rewrite FloatAxioms.ltb_spec, FloatAxioms.leb_spec. unfold SFltb, SFleb.
  destruct (SFcompare (Prim2SF x) (Prim2SF y)) as [[]|]; congruence.
Qed.

Lemma ltb_not_leb (x y : float) : (x <? y) = true -> (y <=? x) = false.
Proof.
  rewrite FloatAxioms.ltb_spec, FloatAxioms.leb_spec. unfold SFltb, SFleb.
  rewrite (SFcompare_antisym (Prim2SF x) (Prim2SF y)).
  destruct (SFcompare (Prim2SF x) (Prim2SF y)) as [[]|]; simpl; congruence.
Qed.

Lemma leb_not_ltb (x y : float) : (x <=? y) = true -> (y <? x) = false.
Proof.
  rewrite FloatAxioms.ltb_spec, FloatAxioms.leb_spec. unfold SFltb, SFleb.
  rewrite (SFcompare_antisym (Prim2SF x) (Prim2SF y)).
  destruct (SFcompare (Prim2SF x) (Prim2SF y)) as [[]|]; simpl; congruence.
Qed.

Lemma not_ltb_leb (x y : float) :
  is_nan x = false -> is_nan y = false -> (x <? y) = false -> (y <=? x) = true.
Proof.
  rewrite !is_nan_spec, FloatAxioms.ltb_spec, FloatAxioms.leb_spec. unfold SFltb, SFleb.
  intros Dx Dy. apply negb_false_iff in Dx, Dy.
  rewrite (SFcompare_antisym (Prim2SF x) (Prim2SF y)).
  destruct (SFcompare_defined _ _ Dx Dy) as [c ->].
  destruct c; simpl; congruence.
Qed.

Lemma leb_trans (x y z : float) :
  (x <=? y) = true -> (y <=? z) = true -> (x <=? z) = true.
Proof. rewrite !FloatAxioms.leb_spec. apply SFleb_trans. Qed.

Lemma leb_defined (x y : float) :
  (x <=? y) = true -> is_nan x = false /\ is_nan y = false.
Proof.
  rewrite !is_nan_spec, FloatAxioms.leb_spec. unfold SFleb.
  destruct (SFcompare (Prim2SF x) (Prim2SF y)) as [c|] eqn:E; try discriminate.
  apply SFcompare_some in E. destruct E as [-> ->]. auto.
Qed.

Lemma is_finite_defined (x : float) : is_finite x = true -> is_nan x = false.
Proof.
  unfold is_finite. intros H. apply negb_true_iff, orb_false_iff in H. tauto.
Qed.

End IEEEFacts.

Module Degenerate.

Import IEEE.
Local Open Scope float_scope.

Lemma SFeqb_finite (s1 s2 : bool) (m1 m2 : positive) (e1 e2 : Z) :
  SFeqb (S754_finite s1 m1 e1) (S754_finite s2 m2 e2) = true ->
  s1 = s2 /\ m1 = m2 /\ e1 = e2.
Proof.
  unfold SFeqb. simpl.
  change (Pos.compare_cont Eq m1 m2) with (Pos.compare m1 m2).
  destruct s1, s2; try discriminate;
    destruct (Z.compare_spec e1 e2); try discriminate;
    destruct (Pos.compare_spec m1 m2); try discriminate; auto.
Qed.

(** The difference of two equal values is a zero, or NaN for two equal
    infinities. *)
Lemma SFsub_equal (x y : spec_float) :
  SFeqb x y = true -> zero_or_nan (SF64sub x y) = true.
Proof.
  destruct x as [sx|sx| |sx mx ex], y as [sy|sy| |sy my ey];
    try (unfold SFeqb; simpl; try destruct sx; try destruct sy; easy).
  intros H. apply SFeqb_finite in H. destruct H as (-> & -> & ->).
  unfold SF64sub, SFsub. rewrite Z.sub_diag. reflexivity.
Qed.

Lemma SFdiv_by_zero_or_nan (x z : spec_float) :
  zero_or_nan z = true -> inf_or_nan (SF64div x z) = true.
Proof. destruct x, z; simpl; easy. Qed.

Lemma SFdiv_of_zero_or_nan (x y : spec_float) :
  zero_or_nan x = true -> zero_or_nan (SF64div x y) = true.
Proof. destruct x, y; simpl; easy. Qed.

Lemma SFltb_above_zero_or_nan (c x : spec_float) :
  positive_finite c = true -> zero_or_nan x = true -> SFltb c x = false.
Proof. destruct c as [| | |[] m e], x; simpl; easy. Qed.

Lemma SFltb_inside_inf_or_nan (a b x : spec_float) :
  positive_finite a = true -> positive_finite b = true ->
  inf_or_nan x = true -> (SFltb a x && SFltb x b)%bool = false.
Proof.
  destruct a as [| | |[] ma ea], b as [| | |[] mb eb]; try easy.
  destruct x as [|[]| |]; simpl; easy.
Qed.

Lemma sub_equal (u l : float) :
  (u =? l) = true -> zero_or_nan (Prim2SF (u - l)) = true.
Proof.
  rewrite FloatAxioms.eqb_spec, sub_spec. apply SFsub_equal.
Qed.

Lemma div_by_zero_or_nan (x z : float) :
  zero_or_nan (Prim2SF z) = true -> inf_or_nan (Prim2SF (x / z)) = true.
Proof. rewrite div_spec. apply SFdiv_by_zero_or_nan. Qed.

Lemma div_of_zero_or_nan (x y : float) :
  zero_or_nan (Prim2SF x) = true -> zero_or_nan (Prim2SF (x / y)) = true.
Proof. rewrite div_spec. apply SFdiv_of_zero_or_nan. Qed.

Lemma inf_or_nan_not_finite (x : float) :
  inf_or_nan (Prim2SF x) = true -> is_finite x = false.
Proof.
  intros H. unfold is_finite, is_infinity.
  rewrite IEEEFacts.is_nan_spec, FloatAxioms.eqb_spec, abs_spec.
  destruct (Prim2SF x); try discriminate; reflexivity.
Qed.

(** A zero or a NaN exceeds no positive constant. *)
Lemma gtb_zero_or_nan (c x : float) :
  positive_finite (Prim2SF c) = true -> zero_or_nan (Prim2SF x) = true ->
  (x >? c) = false.
Proof. rewrite FloatAxioms.ltb_spec. apply SFltb_above_zero_or_nan. Qed.

(** An infinity or a NaN lies strictly between no two positive constants. *)
Lemma inside_inf_or_nan (a b x : float) :
  positive_finite (Prim2SF a) = true -> positive_finite (Prim2SF b) = true ->
  inf_or_nan (Prim2SF x) = true -> ((a <? x) && (x <? b))%bool = false.
Proof. rewrite !FloatAxioms.ltb_spec. apply SFltb_inside_inf_or_nan. Qed.

End Degenerate.

(** ** Indexing and element-wise operations *)

Module ArrayFacts.

Lemma length_map2 {A B C : Type} (f : A -> B -> C) (a : list A) (b : list B) :
  length (map2 f a b) = Nat.min (length a) (length b).
Proof. unfold map2. now rewrite length_map, length_combine. Qed.

Lemma length_last_k {A : Type} (k : nat) (a : list A) :
  length (last_k k a) = Nat.min k (length a).
Proof. unfold last_k. rewrite length_skipn. lia. Qed.

Lemma ufunc_same_length {A B C : Type} (f : A -> B -> C) (a : list A) (b : list B) :
  length a = length b -> ufunc f a b = Ok (map2 f a b).
Proof. intros H. unfold ufunc. now rewrite H, Nat.eqb_refl. Qed.

(** A negative index within the array. *)
Lemma getitem_neg (a : ndarray) (k : positive) :
  (Pos.to_nat k <= length a)%nat -> a.[Zneg k] = Ok (back (Pos.to_nat k) a).
Proof.
  intros H. unfold getitem, back, len. cbn [Z.ltb Z.compare].
  assert (E : (Zneg k + Z.of_nat (length a))%Z
              = Z.of_nat (length a - Pos.to_nat k)) by lia.
  rewrite E.
  destruct (Z.ltb_spec (Z.of_nat (length a - Pos.to_nat k)) 0); try lia.
  destruct (Z.leb_spec (Z.of_nat (length a))
                       (Z.of_nat (length a - Pos.to_nat k))); try lia.
  cbn [orb]. rewrite Nat2Z.id.
  rewrite (nth_error_nth' a nan) by lia. reflexivity.
Qed.

Lemma getitem_empty {A : Type} (i : Z) : (@nil A).[i] = Raise IndexError.
Proof.
  unfold getitem, len. cbn [length Z.of_nat].
  destruct (i <? 0)%Z eqn:E.
  - rewrite Z.add_0_r, E. reflexivity.
  - rewrite E. cbn [orb]. apply Z.ltb_ge in E.
    destruct (Z.leb_spec 0 i); [reflexivity | lia].
Qed.

Lemma getitem_first (a : ndarray) :
  (1 <= length a)%nat -> a.[0] = Ok (nth 0 a nan).
Proof.
  intros H. destruct a as [|x a]; [simpl in H; lia|].
  unfold getitem, len. cbn [Z.ltb Z.compare orb].
  destruct (Z.leb_spec (Z.of_nat (length (x :: a))) 0) as [L|L].
  - simpl length in L. lia.
  - reflexivity.
Qed.

Lemma len_ge (a : ndarray) (k : nat) :
  (Z.of_nat k <=? len a)%Z = (k <=? length a)%nat.
Proof.
  unfold len. destruct (Nat.leb_spec k (length a)).
  - apply Z.leb_le. lia.
  - apply Z.leb_gt. lia.
Qed.

End ArrayFacts.

(** ** The script on aligned arrays: every index resolves *)

Module Run.

Import History ArrayFacts.

Lemma len_ge5 (a : ndarray) : (5 <=? len a)%Z = (5 <=? length a)%nat.
Proof. exact (len_ge a 5). Qed.

Lemma len_ge2 (a : ndarray) : (2 <=? len a)%Z = (2 <=? length a)%nat.
Proof. exact (len_ge a 2). Qed.

Lemma length_widths (up mid lower : ndarray) :
  length up = length mid -> length lower = length mid ->
  length (widths up mid lower) = length mid.
Proof.
  intros Hu Hl. unfold widths. rewrite !length_map2. lia.
Qed.

Lemma boll_width_aligned (up mid lower : ndarray) :
  length up = length mid -> length lower = length mid ->
  boll_width up mid lower = Ok (widths up mid lower).
Proof.
  intros Hu Hl. unfold boll_width, widths.
  rewrite ufunc_same_length by lia. cbn [bind].
  apply ufunc_same_length. rewrite length_map2. lia.
Qed.

Lemma prev_width_nonempty (W : ndarray) :
  (1 <= length W)%nat -> prev_width W = Ok (reference_width W).
Proof.
  intros H. unfold prev_width, reference_width. rewrite len_ge5.
  destruct (Nat.leb_spec 5 (length W)).
  - apply (getitem_neg W 5). simpl. lia.
  - now apply getitem_first.
Qed.

Lemma mid_slope_nonempty (mid : ndarray) :
  (1 <= length mid)%nat -> mid_slope mid = Ok (slope_of mid).
Proof.
  intros H. unfold mid_slope, slope_of. rewrite len_ge5.
  destruct (Nat.leb_spec 5 (length mid)); [|reflexivity].
  rewrite (getitem_neg mid 1) by (simpl; lia).
  rewrite (getitem_neg mid 5) by (simpl; lia). reflexivity.
Qed.

Lemma width_change_aligned (up mid lower : ndarray) :
  length up = length mid -> length lower = length mid ->
  width_change (back 1 up) (back 1 mid) (back 1 lower) up mid lower
  = Ok (ratio_of up mid lower).
Proof.
  intros Hu Hl. unfold width_change, ratio_of. rewrite len_ge5.
  destruct (Nat.leb_spec 5 (length mid)); [|reflexivity].
  rewrite (getitem_neg up 5) by (simpl; lia).
  rewrite (getitem_neg lower 5) by (simpl; lia).
  rewrite (getitem_neg mid 5) by (simpl; lia). reflexivity.
Qed.

Lemma above_mid_aligned (CLOSE mid : ndarray) :
  length mid = length CLOSE ->
  above_mid CLOSE mid = Ok (Spec.closes_above CLOSE mid).
Proof.
  intros H. unfold above_mid, Spec.closes_above.
  rewrite ufunc_same_length; [reflexivity|].
  rewrite !length_last_k. lia.
Qed.

Lemma trading_signals_aligned (CLOSE up mid lower : ndarray) :
  aligned CLOSE up mid lower -> (2 <= length CLOSE)%nat ->
  trading_signals CLOSE up mid lower
    (back 1 CLOSE) (back 1 up) (back 1 mid) (back 1 lower)
  = Ok (Signals (signals_of CLOSE up mid lower) (advice_of CLOSE up mid lower)).
Proof.
  intros (Hu & Hm & Hl) H. unfold trading_signals. rewrite len_ge2.
  destruct (Nat.leb_spec 2 (length CLOSE)); [|lia].
  rewrite (getitem_neg CLOSE 2) by (simpl; lia).
  rewrite (getitem_neg up 2) by (simpl; lia).
  rewrite (getitem_neg mid 2) by (simpl; lia).
  rewrite (getitem_neg lower 2) by (simpl; lia).
  cbn [bind].
  rewrite width_change_aligned by lia.
  rewrite above_mid_aligned by lia.
  reflexivity.
Qed.

Lemma trading_signals_single (CLOSE up mid lower : ndarray) (p u m l : float) :
  (length CLOSE < 2)%nat ->
  trading_signals CLOSE up mid lower p u m l = Ok DataShortage.
Proof.
  intros H. unfold trading_signals. rewrite len_ge2.
  destruct (Nat.leb_spec 2 (length CLOSE)); [lia|reflexivity].
Qed.

(** On aligned, non-empty arrays the script raises nothing and prints
    [report_of]. *)
Lemma main_aligned (CLOSE up mid lower : ndarray) :
  aligned CLOSE up mid lower -> (1 <= length CLOSE)%nat ->
  main CLOSE up mid lower = Ok (report_of CLOSE up mid lower).
Proof.
  intros A H. pose proof A as (Hu & Hm & Hl). unfold main.
  rewrite (getitem_neg CLOSE 1) by (simpl; lia).
  rewrite (getitem_neg up 1) by (simpl; lia).
  rewrite (getitem_neg mid 1) by (simpl; lia).
  rewrite (getitem_neg lower 1) by (simpl; lia).
  cbn [bind].
  rewrite boll_width_aligned by lia. cbn [bind].
  assert (LW : length (widths up mid lower) = length mid)
    by (apply length_widths; lia).
  rewrite (getitem_neg (widths up mid lower) 1) by (simpl; lia).
  cbn [bind].
  rewrite prev_width_nonempty by lia. cbn [bind].
  rewrite mid_slope_nonempty by lia. cbn [bind].
  unfold report_of.
  destruct (Nat.leb_spec 2 (length CLOSE)).
  - rewrite trading_signals_aligned by assumption. reflexivity.
  - rewrite trading_signals_single by assumption. reflexivity.
Qed.

(** The arrays of the band calculator are aligned with the closes. *)
Lemma BOLL_aligned (CLOSE up mid lower : ndarray) :
  MyTT.BOLL CLOSE = (up, mid, lower) -> aligned CLOSE up mid lower.
Proof.
  unfold MyTT.BOLL, MyTT.BOLL_with, MyTT.MA, MyTT.STD, MyTT.rolling.
  intros E. injection E as <- <- <-. unfold aligned.
  rewrite !length_map2, !length_map, !length_seq. lia.
Qed.

Lemma analyse_nonempty (CLOSE : ndarray) :
  (1 <= length CLOSE)%nat ->
  exists up mid lower,
    MyTT.BOLL CLOSE = (up, mid, lower) /\
    analyse CLOSE = Ok (report_of CLOSE up mid lower).
Proof.
  intros H. unfold analyse.
  destruct (MyTT.BOLL CLOSE) as [[up mid] lower] eqn:E.
  exists up, mid, lower. split; [reflexivity|].
  apply main_aligned; [now apply BOLL_aligned | assumption].
Qed.

End Run.

(** ** The crossing detector *)

Module Crossing.

Import History IEEEFacts.
Local Open Scope float_scope.

Ltac absurd_order :=
  repeat match goal with
         | H : true = true -> _ |- _ => specialize (H eq_refl)
         | H : false = true -> _ |- _ => clear H
         end;
  try discriminate.

Ltac settle_membership :=
  cbn [In app]; repeat split; intros;
  repeat match goal with
         | H : _ \/ _ |- _ => destruct H
         | H : _ /\ _ |- _ => destruct H
         | H : False |- _ => destruct H
         end;
  try discriminate; try reflexivity; auto.

(** The band chain on its own: which of its four messages it appends. *)
Lemma band_crossing_chain (pp pu pl cp cu cl : float) :
  let b := band_crossing pp pu pl cp cu cl [] in
  (In UpperBreakout b <-> ((pp <=? pu) && (cp >? cu))%bool = true) /\
  (In UpperRejection b <-> ((pp >=? pu) && (cp <? cu))%bool = true) /\
  (In LowerBreakdown b <->
     ((pp >=? pl) && (cp <? cl))%bool = true
     /\ ((pp <=? pu) && (cp >? cu))%bool = false
     /\ ((pp >=? pu) && (cp <? cu))%bool = false) /\
  (In LowerRebound b <->
     ((pp <=? pl) && (cp >? cl))%bool = true
     /\ ((pp <=? pu) && (cp >? cu))%bool = false
     /\ ((pp >=? pu) && (cp <? cu))%bool = false) /\
  (forall s, In s b -> Spec.is_crossing s = true) /\
  (length b <= 1)%nat.
Proof.
  unfold band_crossing.
  pose proof (ltb_antisym cu cp) as U.
  pose proof (ltb_antisym cl cp) as L.
  destruct (pp <=? pu), (cu <? cp), (pu <=? pp), (cp <? cu),
           (pl <=? pp), (cp <? cl), (pp <=? pl), (cl <? cp);
    cbn [andb] in *; absurd_order; settle_membership; subst; auto.
Qed.

(** The midline chain appends to whatever the band chain left. *)
Lemma mid_crossing_app (pp pm cp cm : float) (signals : list signal) :
  mid_crossing pp pm cp cm signals = signals ++ mid_crossing pp pm cp cm [].
Proof.
  unfold mid_crossing.
  destruct ((pp <=? pm) && (cm <? cp))%bool; [reflexivity|].
  destruct ((pm <=? pp) && (cp <? cm))%bool; [reflexivity|].
  now rewrite app_nil_r.
Qed.

Lemma mid_crossing_chain (pp pm cp cm : float) :
  let m := mid_crossing pp pm cp cm [] in
  (In MidBullish m <-> ((pp <=? pm) && (cp >? cm))%bool = true) /\
  (In MidBearish m <-> ((pp >=? pm) && (cp <? cm))%bool = true) /\
  (forall s, In s m -> s = MidBullish \/ s = MidBearish) /\
  (length m <= 1)%nat.
Proof.
  unfold mid_crossing.
  pose proof (ltb_antisym cm cp) as M.
  destruct (pp <=? pm), (cm <? cp), (pm <=? pp), (cp <? cm);
    cbn [andb] in *; absurd_order; settle_membership.
Qed.

Lemma crossing_signals_split (pp pu pm pl cp cu cm cl : float) :
  crossing_signals pp pu pm pl cp cu cm cl
  = band_crossing pp pu pl cp cu cl [] ++ mid_crossing pp pm cp cm [].
Proof. unfold crossing_signals. cbv zeta. apply mid_crossing_app. Qed.

Lemma band_crossing_kinds (pp pu pl cp cu cl : float) (s : signal) :
  In s (band_crossing pp pu pl cp cu cl []) ->
  s = UpperBreakout \/ s = UpperRejection \/ s = LowerBreakdown \/ s = LowerRebound.
Proof.
  unfold band_crossing.
  destruct ((pp <=? pu) && (cu <? cp))%bool; [cbn; intuition|].
  destruct ((pu <=? pp) && (cp <? cu))%bool; [cbn; intuition|].
  destruct ((pl <=? pp) && (cp <? cl))%bool; [cbn; intuition|].
  destruct ((pp <=? pl) && (cl <? cp))%bool; cbn; intuition.
Qed.

Lemma crossing_signals_are_crossings (pp pu pm pl cp cu cm cl : float) (s : signal) :
  In s (crossing_signals pp pu pm pl cp cu cm cl) -> Spec.is_crossing s = true.
Proof.
  rewrite crossing_signals_split, in_app_iff. intros [H|H].
  - apply band_crossing_kinds in H. destruct H as [->|[->|[->| ->]]]; reflexivity.
  - apply mid_crossing_chain in H. destruct H as [->| ->]; reflexivity.
Qed.

(** C1, as the claim states it, fails: a bar that satisfies both the
    upper-breakout and the lower-rebound condition (the previous close at
    or under the previous lower band, the current close above the current
    upper band) gets the breakout message only, because the four band
    checks are one if/elif chain. *)
Lemma crossing_checks_not_independent :
  ~ Spec.checks_independent 9.9 10.5 10.25 10 10.6 10.5 10.2 9.9.
Proof.
  intros H. destruct (H LowerRebound eq_refl) as [_ H'].
  assert (I : In LowerRebound
                (crossing_signals 9.9 10.5 10.25 10 10.6 10.5 10.2 9.9))
    by (apply H'; vm_compute; reflexivity).
  vm_compute in I. destruct I as [I|[I|[]]]; discriminate.
Qed.

(** C1, amended: the crossing detector runs two if/elif chains one after
    the other.  The upper breakout, the upper rejection and the two midline
    crosses are emitted exactly when their own condition holds; the lower
    breakdown and the lower rebound are emitted exactly when their
    condition holds and neither upper check fired.  At most two crossing
    signals are emitted, one per chain, and an upper breakout together with
    a midline cross does occur. *)
Theorem crossing_two_chains :
  (forall prev_price prev_up prev_mid prev_lower
          current_price current_up current_mid current_lower : float,
      let signals :=
        crossing_signals prev_price prev_up prev_mid prev_lower
                         current_price current_up current_mid current_lower in
      let holds s :=
        Spec.crossing_condition s prev_price prev_up prev_mid prev_lower
                                current_price current_up current_mid current_lower in
      (In UpperBreakout signals <-> holds UpperBreakout = true) /\
      (In UpperRejection signals <-> holds UpperRejection = true) /\
      (In LowerBreakdown signals <->
         holds LowerBreakdown = true
         /\ holds UpperBreakout = false /\ holds UpperRejection = false) /\
      (In LowerRebound signals <->
         holds LowerRebound = true
         /\ holds UpperBreakout = false /\ holds UpperRejection = false) /\
      (In MidBullish signals <-> holds MidBullish = true) /\
      (In MidBearish signals <-> holds MidBearish = true) /\
      (length signals <= 2)%nat) /\
  (exists prev_price prev_up prev_mid prev_lower
          current_price current_up current_mid current_lower : float,
      crossing_signals prev_price prev_up prev_mid prev_lower
                       current_price current_up current_mid current_lower
      = [UpperBreakout; MidBullish]).
Proof.
  split.
  - intros pp pu pm pl cp cu cm cl. cbv zeta.
    rewrite crossing_signals_split.
    destruct (band_crossing_chain pp pu pl cp cu cl) as (B1 & B2 & B3 & B4 & B5 & B6).
    destruct (mid_crossing_chain pp pm cp cm) as (M1 & M2 & M3 & M4).
    cbv zeta in *. cbn [Spec.crossing_condition].
    set (b := band_crossing pp pu pl cp cu cl []) in *.
    set (m := mid_crossing pp pm cp cm []) in *.
    assert (EB : forall s, s <> MidBullish -> s <> MidBearish ->
                 (In s b \/ In s m <-> In s b)).
    { intros s N1 N2. split; [|tauto].
      intros [I|I]; [exact I|]. apply M3 in I. tauto. }
    assert (EM : forall s, s = MidBullish \/ s = MidBearish ->
                 (In s b \/ In s m <-> In s m)).
    { intros s Hs. split; [|tauto].
      intros [I|I]; [|exact I]. apply band_crossing_kinds in I.
      destruct Hs as [-> | ->], I as [I|[I|[I|I]]]; discriminate. }
    rewrite !in_app_iff, length_app.
    rewrite (EB UpperBreakout), (EB UpperRejection), (EB LowerBreakdown),
      (EB LowerRebound) by discriminate.
    rewrite (EM MidBullish), (EM MidBearish) by auto.
    assert (length b + length m <= 2)%nat by lia.
    tauto.
  - exists 9.9, 10.5, 10.25, 10, 10.6, 10.5, 10.2, 9.9.
    vm_compute. reflexivity.
Qed.

End Crossing.

(** ** The signal aggregator *)

Module Aggregator.

Import History.
Local Open Scope float_scope.

Lemma filter_none {A : Type} (P : A -> bool) (l : list A) :
  (forall x, In x l -> P x = false) -> filter P l = [].
Proof.
  induction l as [|x l IH]; intros H; [reflexivity|].
  cbn [filter]. rewrite (H x) by (left; reflexivity).
  apply IH. intros y Hy. apply H. now right.
Qed.

Lemma filter_all {A : Type} (P : A -> bool) (l : list A) :
  (forall x, In x l -> P x = true) -> filter P l = l.
Proof.
  induction l as [|x l IH]; intros H; [reflexivity|].
  cbn [filter]. rewrite (H x) by (left; reflexivity).
  f_equal. apply IH. intros y Hy. apply H. now right.
Qed.

Lemma filter_snoc_out {A : Type} (P : A -> bool) (l : list A) (x : A) :
  P x = false -> filter P (l ++ [x]) = filter P l.
Proof.
  intros H. rewrite filter_app. cbn [filter]. rewrite H. apply app_nil_r.
Qed.

(** What each later stage leaves untouched. *)
Lemma filter_width_signal (P : signal -> bool) (wc : float) (signals : list signal) :
  P WidthExpanding = false -> P WidthContracting = false ->
  filter P (width_signal wc signals) = filter P signals.
Proof.
  intros E C. unfold width_signal.
  destruct (wc >? 1.1); [now apply filter_snoc_out|].
  destruct (wc <? 0.9); [now apply filter_snoc_out|reflexivity].
Qed.

Lemma filter_persistence (P : signal -> bool) (n : nat) (signals : list signal) :
  (forall k, P (StrongContinuation k) = false) ->
  (forall k, P (WeakContinuation k) = false) ->
  filter P (persistence n signals) = filter P signals.
Proof.
  intros S W. unfold persistence.
  destruct (4 <=? n)%nat; [now apply filter_snoc_out|].
  destruct (n <=? 1)%nat; [now apply filter_snoc_out|reflexivity].
Qed.

Lemma filter_positional_out (P : signal -> bool) (pb : float) (signals : list signal) :
  (forall b x, P (Positional b x) = false) ->
  filter P (positional pb signals) = filter P signals.
Proof.
  intros H. unfold positional. destruct signals as [|s signals]; [|reflexivity].
  cbn [app filter]. now rewrite H.
Qed.

(** The crossing signals of the final list are the ones the detector
    emitted; the bucket message is there exactly when the detector emitted
    nothing. *)
Lemma crossings_kept (CLOSE up mid lower : ndarray) :
  filter Spec.is_crossing (signals_of CLOSE up mid lower)
  = crossings_of CLOSE up mid lower.
Proof.
  unfold signals_of.
  rewrite filter_persistence, filter_width_signal, filter_positional_out
    by reflexivity.
  apply filter_all. intros s. apply Crossing.crossing_signals_are_crossings.
Qed.

Lemma positional_emitted (CLOSE up mid lower : ndarray) :
  filter Spec.is_positional (signals_of CLOSE up mid lower)
  = match crossings_of CLOSE up mid lower with
    | [] => let pb := percent_b_of CLOSE up lower in
            [Positional (bucket_of pb) pb]
    | _ :: _ => []
    end.
Proof.
  unfold signals_of.
  rewrite filter_persistence, filter_width_signal by reflexivity.
  pose proof (Crossing.crossing_signals_are_crossings
                (back 2 CLOSE) (back 2 up) (back 2 mid) (back 2 lower)
                (back 1 CLOSE) (back 1 up) (back 1 mid) (back 1 lower)) as K.
  fold (crossings_of CLOSE up mid lower) in K.
  destruct (crossings_of CLOSE up mid lower) as [|s cs]; [reflexivity|].
  cbn [positional]. apply filter_none. intros x Hx.
  apply K in Hx. destruct x; try discriminate; reflexivity.
Qed.

Lemma existsb_filter {A : Type} (P : A -> bool) (l : list A) :
  existsb P l = negb (length (filter P l) =? 0)%nat.
Proof.
  induction l as [|x l IH]; [reflexivity|].
  cbn [existsb filter]. destruct (P x); [reflexivity|]. exact IH.
Qed.

(** C3: on every series of at least two bars the aggregator appends a
    percent-B bucket signal if and only if no crossing signal fired in the
    run: the final list holds a bucket signal exactly when it holds no
    crossing signal, and it holds one bucket signal then and none
    otherwise. *)
Theorem positional_iff_no_crossing (CLOSE up mid lower : ndarray) :
  aligned CLOSE up mid lower -> (2 <= length CLOSE)%nat ->
  exists r signals a,
    main CLOSE up mid lower = Ok r /\
    rep_signals r = Signals signals a /\
    filter Spec.is_crossing signals = crossings_of CLOSE up mid lower /\
    existsb Spec.is_positional signals = negb (existsb Spec.is_crossing signals) /\
    length (filter Spec.is_positional signals)
    = if existsb Spec.is_crossing signals then 0%nat else 1%nat.
Proof.
  intros A H.
  exists (report_of CLOSE up mid lower), (signals_of CLOSE up mid lower),
    (advice_of CLOSE up mid lower).
  split; [apply Run.main_aligned; [assumption|lia]|].
  split.
  { unfold report_of. cbn [rep_signals].
    destruct (Nat.leb_spec 2 (length CLOSE)); [reflexivity|lia]. }
  split; [apply crossings_kept|].
  rewrite !existsb_filter, crossings_kept, positional_emitted.
  destruct (crossings_of CLOSE up mid lower); split; reflexivity.
Qed.

Lemma positional_iff_no_crossing_witness :
  aligned [9; 11] [10; 10] [8; 8] [5; 5] /\
  (2 <= length [9; 11]%float)%nat /\
  exists r signals a,
    main [9; 11] [10; 10] [8; 8] [5; 5] = Ok r /\
    rep_signals r = Signals signals a /\
    filter Spec.is_crossing signals = crossings_of [9; 11] [10; 10] [8; 8] [5; 5] /\
    existsb Spec.is_positional signals = negb (existsb Spec.is_crossing signals) /\
    length (filter Spec.is_positional signals)
    = if existsb Spec.is_crossing signals then 0%nat else 1%nat.
Proof.
  assert (A : aligned [9; 11] [10; 10] [8; 8] [5; 5])
    by (repeat split; reflexivity).
  assert (L : (2 <= length [9; 11]%float)%nat) by (simpl; lia).
  split; [exact A|]. split; [exact L|].
  exact (positional_iff_no_crossing [9; 11] [10; 10] [8; 8] [5; 5] A L).
Defined.

(** The branch of line 131 is dead: the list that is printed is never
    empty. *)
Lemma signals_never_empty (CLOSE up mid lower : ndarray) :
  signals_of CLOSE up mid lower <> [].
Proof.
  intros E.
  pose proof (crossings_kept CLOSE up mid lower) as C.
  pose proof (positional_emitted CLOSE up mid lower) as P.
  rewrite E in C, P. cbn [filter] in C, P. rewrite <- C in P. discriminate.
Qed.

Lemma no_crossing_line_never_printed (CLOSE up mid lower : ndarray) :
  print_signals (signals_of CLOSE up mid lower)
  = map SignalLine (signals_of CLOSE up mid lower).
Proof.
  pose proof (signals_never_empty CLOSE up mid lower) as N.
  destruct (signals_of CLOSE up mid lower); [congruence|reflexivity].
Qed.

End Aggregator.

(** ** The advisory generator *)

Module Advisory.

Import History IEEE.
Local Open Scope float_scope.

Lemma report_signals (CLOSE up mid lower : ndarray) :
  (2 <= length CLOSE)%nat ->
  rep_signals (report_of CLOSE up mid lower)
  = Signals (signals_of CLOSE up mid lower) (advice_of CLOSE up mid lower).
Proof.
  intros H. unfold report_of. cbn [rep_signals].
  destruct (Nat.leb_spec 2 (length CLOSE)); [reflexivity|lia].
Qed.

(** The if/elif chain of lines 135-142 is the rule table read top to
    bottom. *)
Lemma advise_table (percent_b width_change : float) :
  advise percent_b width_change
  = Spec.first_match Spec.advisory_rules FollowTrend percent_b width_change.
Proof.
  unfold advise, Spec.first_match, Spec.advisory_rules. cbn [find fst snd].
  destruct ((percent_b >? 0.9) && (width_change >? 1.05))%bool; [reflexivity|].
  destruct ((percent_b <? 0.1) && (width_change >? 1.05))%bool; [reflexivity|].
  destruct (((0.3 <? percent_b) && (percent_b <? 0.7))
            && (width_change <? 0.9))%bool; reflexivity.
Qed.

(** C4: the advice is the first matching rule of the table (percent-B over
    0.9 with a ratio over 1.05; percent-B under 0.1 with a ratio over 1.05;
    percent-B strictly between 0.3 and 0.7 with a ratio under 0.9; else the
    trend-following advice), for every pair of numbers, and a run over at
    least two bars prints exactly that one advice. *)
Theorem advisory_first_match :
  (forall percent_b width_change : float,
      advise percent_b width_change
      = Spec.first_match Spec.advisory_rules FollowTrend percent_b width_change) /\
  (forall CLOSE up mid lower : ndarray,
      aligned CLOSE up mid lower -> (2 <= length CLOSE)%nat ->
      exists r signals,
        main CLOSE up mid lower = Ok r /\
        rep_signals r
        = Signals signals
            (Spec.first_match Spec.advisory_rules FollowTrend
               (percent_b_of CLOSE up lower) (ratio_of up mid lower))).
Proof.
  split; [exact advise_table|].
  intros CLOSE up mid lower A H.
  exists (report_of CLOSE up mid lower), (signals_of CLOSE up mid lower).
  split; [apply Run.main_aligned; [assumption|lia]|].
  rewrite report_signals by assumption. unfold advice_of.
  now rewrite advise_table.
Qed.

Lemma advisory_first_match_witness :
  aligned [9; 11] [10; 10] [8; 8] [5; 5] /\
  (2 <= length [9; 11]%float)%nat /\
  exists r signals,
    main [9; 11] [10; 10] [8; 8] [5; 5] = Ok r /\
    rep_signals r
    = Signals signals
        (Spec.first_match Spec.advisory_rules FollowTrend
           (percent_b_of [9; 11] [10; 10] [5; 5]) (ratio_of [10; 10] [8; 8] [5; 5])).
Proof.
  assert (A : aligned [9; 11] [10; 10] [8; 8] [5; 5])
    by (repeat split; reflexivity).
  assert (L : (2 <= length [9; 11]%float)%nat) by (simpl; lia).
  split; [exact A|]. split; [exact L|].
  exact (proj2 advisory_first_match [9; 11] [10; 10] [8; 8] [5; 5] A L).
Defined.

(** With a ratio of exactly 1 no rule but the last can match. *)
Lemma advise_unit_ratio (percent_b : float) : advise percent_b 1 = FollowTrend.
Proof.
  unfold advise.
  replace (1 >? 1.05) with false by reflexivity.
  replace (1 <? 0.9) with false by reflexivity.
  now rewrite !andb_false_r.
Qed.

Lemma width_signal_unit_ratio (signals : list signal) :
  width_signal 1 signals = signals.
Proof. reflexivity. Qed.

Lemma ratio_of_short (up mid lower : ndarray) :
  (length mid < 5)%nat -> ratio_of up mid lower = 1.
Proof.
  intros H. unfold ratio_of.
  destruct (Nat.leb_spec 5 (length mid)); [lia|reflexivity].
Qed.

Lemma no_width_signal (CLOSE up mid lower : ndarray) :
  (ratio_of up mid lower >? 1.1) = false ->
  (ratio_of up mid lower <? 0.9) = false ->
  filter Spec.is_width (signals_of CLOSE up mid lower) = [].
Proof.
  intros E C. unfold signals_of.
  rewrite Aggregator.filter_persistence by reflexivity.
  unfold width_signal. rewrite E, C.
  rewrite Aggregator.filter_positional_out by reflexivity.
  apply Aggregator.filter_none. intros s Hs.
  apply Crossing.crossing_signals_are_crossings in Hs.
  destruct s; try discriminate; reflexivity.
Qed.

(** C10: with at least two and fewer than five bars the width ratio of the
    signal block is exactly 1, the signal list holds no width signal, and
    the advice is the trend-following one of the last rule. *)
Theorem short_series_follow_trend (CLOSE up mid lower : ndarray) :
  aligned CLOSE up mid lower ->
  (2 <= length CLOSE)%nat -> (length CLOSE < 5)%nat ->
  width_change (back 1 up) (back 1 mid) (back 1 lower) up mid lower = Ok 1 /\
  exists r signals,
    main CLOSE up mid lower = Ok r /\
    rep_signals r = Signals signals FollowTrend /\
    ~ In WidthExpanding signals /\ ~ In WidthContracting signals.
Proof.
  intros A H2 H5. pose proof A as (Hu & Hm & Hl).
  assert (R : ratio_of up mid lower = 1) by (apply ratio_of_short; lia).
  split.
  { rewrite Run.width_change_aligned by lia. now rewrite R. }
  exists (report_of CLOSE up mid lower), (signals_of CLOSE up mid lower).
  split; [apply Run.main_aligned; [assumption|lia]|].
  rewrite report_signals by assumption. unfold advice_of. rewrite R.
  rewrite advise_unit_ratio. split; [reflexivity|].
  assert (F : filter Spec.is_width (signals_of CLOSE up mid lower) = [])
    by (apply no_width_signal; rewrite R; reflexivity).
  split; intros I.
  - assert (I' : In WidthExpanding (filter Spec.is_width (signals_of CLOSE up mid lower)))
      by (apply filter_In; split; [exact I|reflexivity]).
    rewrite F in I'. destruct I'.
  - assert (I' : In WidthContracting (filter Spec.is_width (signals_of CLOSE up mid lower)))
      by (apply filter_In; split; [exact I|reflexivity]).
    rewrite F in I'. destruct I'.
Qed.

Lemma short_series_follow_trend_witness :
  aligned [10; 10.5; 11] [nan; nan; nan] [nan; nan; nan] [nan; nan; nan] /\
  (2 <= length [10; 10.5; 11]%float)%nat /\ (length [10; 10.5; 11]%float < 5)%nat /\
  width_change nan nan nan [nan; nan; nan] [nan; nan; nan] [nan; nan; nan] = Ok 1 /\
  exists r signals,
    main [10; 10.5; 11] [nan; nan; nan] [nan; nan; nan] [nan; nan; nan] = Ok r /\
    rep_signals r = Signals signals FollowTrend /\
    ~ In WidthExpanding signals /\ ~ In WidthContracting signals.
Proof.
  assert (A : aligned [10; 10.5; 11] [nan; nan; nan] [nan; nan; nan] [nan; nan; nan])
    by (repeat split; reflexivity).
  assert (L2 : (2 <= length [10; 10.5; 11]%float)%nat) by (simpl; lia).
  assert (L5 : (length [10; 10.5; 11]%float < 5)%nat) by (simpl; lia).
  split; [exact A|]. split; [exact L2|]. split; [exact L5|].
  exact (short_series_follow_trend
           [10; 10.5; 11] [nan; nan; nan] [nan; nan; nan] [nan; nan; nan] A L2 L5).
Defined.

(** With a degenerate band the quotient is an infinity or a NaN and the
    ratio is a zero, a NaN or 1: only the last rule can match. *)
Lemma advise_degenerate (percent_b width_change : float) :
  inf_or_nan (Prim2SF percent_b) = true ->
  (width_change >? 1.05) = false ->
  advise percent_b width_change = FollowTrend.
Proof.
  intros P W. unfold advise. rewrite W, !andb_false_r.
  rewrite (Degenerate.inside_inf_or_nan 0.3 0.7 percent_b) by (reflexivity || assumption).
  reflexivity.
Qed.

Lemma percent_b_degenerate (p u l : float) :
  (u =? l) = true -> inf_or_nan (Prim2SF (percent_b p u l)) = true.
Proof.
  intros E. unfold percent_b.
  apply Degenerate.div_by_zero_or_nan, Degenerate.sub_equal, E.
Qed.

Lemma ratio_of_degenerate (up mid lower : ndarray) :
  (back 1 up =? back 1 lower) = true ->
  (ratio_of up mid lower >? 1.05) = false.
Proof.
  intros E. unfold ratio_of.
  destruct (5 <=? length mid)%nat; [|reflexivity].
  apply Degenerate.gtb_zero_or_nan; [reflexivity|].
  apply Degenerate.div_of_zero_or_nan, Degenerate.div_of_zero_or_nan,
    Degenerate.sub_equal, E.
Qed.

(** C2, as the claim states it, fails on its own scenario: on twenty closes
    of 10 the latest upper and lower band are both 10, percent-B is NaN, and
    the script still prints an advice of the table, the trend-following
    one. *)
Lemma degenerate_band_advice_not_withheld :
  exists r signals,
    analyse (repeat 10 20%nat) = Ok r /\
    (rep_up r =? rep_lower r) = true /\
    is_nan (percent_b (rep_price r) (rep_up r) (rep_lower r)) = true /\
    rep_signals r = Signals signals FollowTrend /\
    ~ Spec.advisory_withheld r.
Proof.
  eexists. eexists.
  split; [vm_compute; reflexivity|].
  split; [reflexivity|]. split; [reflexivity|]. split; [reflexivity|].
  intros W. eapply W. reflexivity.
Qed.

(** C2, amended: whenever the latest upper band equals the latest lower
    band, percent-B is not a finite number (a NaN or an infinity), the rule
    table is evaluated all the same and its last rule is the one that
    matches, so the advice is the trend-following one; that is the advice
    on twenty closes of 10. *)
Theorem degenerate_band_follow_trend :
  (forall CLOSE up mid lower : ndarray,
      aligned CLOSE up mid lower -> (2 <= length CLOSE)%nat ->
      (back 1 up =? back 1 lower) = true ->
      is_finite (percent_b_of CLOSE up lower) = false /\
      exists r signals,
        main CLOSE up mid lower = Ok r /\
        rep_signals r = Signals signals FollowTrend) /\
  (exists r signals,
      analyse (repeat 10 20%nat) = Ok r /\
      rep_signals r = Signals signals FollowTrend).
Proof.
  split.
  - intros CLOSE up mid lower A H E.
    assert (P : inf_or_nan (Prim2SF (percent_b_of CLOSE up lower)) = true)
      by (apply percent_b_degenerate, E).
    split; [now apply Degenerate.inf_or_nan_not_finite|].
    exists (report_of CLOSE up mid lower), (signals_of CLOSE up mid lower).
    split; [apply Run.main_aligned; [assumption|lia]|].
    rewrite report_signals by assumption. unfold advice_of.
    rewrite advise_degenerate; [reflexivity|exact P|].
    now apply ratio_of_degenerate.
  - eexists. eexists. split; [vm_compute; reflexivity|reflexivity].
Qed.

Lemma degenerate_band_follow_trend_witness :
  aligned [10; 11] [10.5; 10.5] [10.5; 10.5] [10.5; 10.5] /\
  (2 <= length [10; 11]%float)%nat /\
  (back 1 [10.5; 10.5] =? back 1 [10.5; 10.5]) = true /\
  is_finite (percent_b_of [10; 11] [10.5; 10.5] [10.5; 10.5]) = false /\
  exists r signals,
    main [10; 11] [10.5; 10.5] [10.5; 10.5] [10.5; 10.5] = Ok r /\
    rep_signals r = Signals signals FollowTrend.
Proof.
  assert (A : aligned [10; 11] [10.5; 10.5] [10.5; 10.5] [10.5; 10.5])
    by (repeat split; reflexivity).
  assert (L : (2 <= length [10; 11]%float)%nat) by (simpl; lia).
  assert (E : (back 1 [10.5; 10.5] =? back 1 [10.5; 10.5]) = true)
    by reflexivity.
  split; [exact A|]. split; [exact L|]. split; [exact E|].
  exact (proj1 degenerate_band_follow_trend
           [10; 11] [10.5; 10.5] [10.5; 10.5] [10.5; 10.5] A L E).
Defined.

End Advisory.

(** ** The position classifier *)

Module Position.

Import IEEEFacts.
Local Open Scope float_scope.

Lemma leb_negb_ltb (x y : float) :
  is_nan x = false -> is_nan y = false -> (x <=? y) = negb (y <? x).
Proof.
  intros Nx Ny. destruct (y <? x) eqn:E; cbn [negb].
  - now apply ltb_not_leb.
  - now apply not_ltb_leb.
Qed.

(** For a finite price and a defined band triple the if/elif chain returns
    the first region, in descending order, whose condition holds, and for
    ordered bands a region's condition holds for the returned region
    only. *)
Lemma position_defined_bands (price upper middle lower : float) :
  is_finite price = true ->
  is_nan upper = false -> is_nan middle = false -> is_nan lower = false ->
  Spec.first_region price upper middle lower
  = Some (History.position price upper middle lower) /\
  ((lower <=? middle) = true -> (middle <=? upper) = true ->
   forall r : region,
     History.position price upper middle lower = r
     <-> Spec.region_condition r price upper middle lower = true) /\
  Realtime.position price upper middle lower
  = History.position price upper middle lower.
Proof.
  intros F Nu Nm Nl.
  pose proof (is_finite_defined _ F) as Np.
  pose proof (leb_negb_ltb price upper Np Nu) as Eu.
  pose proof (leb_negb_ltb price middle Np Nm) as Em.
  pose proof (leb_negb_ltb price lower Np Nl) as El.
  split; [|split; [|reflexivity]].
  - unfold Spec.first_region, History.position, Spec.region_condition.
    cbn [find]. rewrite Eu, Em, El.
    destruct (upper <? price), (middle <? price), (lower <? price); reflexivity.
  - intros LM MU r.
    pose proof (leb_trans price lower middle) as T1.
    pose proof (leb_trans price middle upper) as T2.
    rewrite LM in T1. rewrite MU in T2.
    unfold History.position, Spec.region_condition.
    rewrite Eu, Em, El in *.
    destruct (upper <? price), (middle <? price), (lower <? price);
      cbn [negb andb] in *;
      try (specialize (T1 eq_refl eq_refl); discriminate);
      try (specialize (T2 eq_refl eq_refl); discriminate);
      destruct r; cbn [negb andb]; split; intros; congruence.
Qed.

(** No comparison with an undefined band holds. *)
Lemma nan_band (price band : float) :
  is_nan band = true ->
  (price >? band) = false /\ (price <=? band) = false.
Proof.
  rewrite is_nan_spec, FloatAxioms.ltb_spec, FloatAxioms.leb_spec.
  intros N. apply negb_true_iff in N.
  destruct (Prim2SF band); try discriminate.
  split; [reflexivity|]. unfold SFleb. now destruct (Prim2SF price).
Qed.

(** C8, as the claim states it, fails: on a series shorter than the window
    of the band calculator the latest band triple is undefined (NaN); the
    price is finite, the script reports the below-lower region, and yet
    price <= lower is false, as is the condition of every other region. *)
Lemma position_without_condition :
  exists r,
    History.analyse [10; 10.5; 11] = Ok r /\
    is_finite (History.rep_price r) = true /\
    History.rep_position r = BelowLower /\
    Realtime.position (History.rep_price r) (History.rep_up r)
                      (History.rep_mid r) (History.rep_lower r) = BelowLower /\
    Spec.region_condition BelowLower (History.rep_price r) (History.rep_up r)
                          (History.rep_mid r) (History.rep_lower r) = false /\
    Spec.first_region (History.rep_price r) (History.rep_up r)
                      (History.rep_mid r) (History.rep_lower r) = None.
Proof.
  eexists. split; [vm_compute; reflexivity|].
  repeat split; reflexivity.
Qed.

(** C8, amended: for a finite price and a band triple with no undefined
    (NaN) entry the classifier of either script returns the first region,
    in descending order, whose condition holds (above-upper when
    price > upper, upper-half when upper >= price > middle, lower-half when
    middle >= price > lower, below-lower when price <= lower), and one
    always does; when the bands are ordered (lower <= middle <= upper) the
    four conditions exclude one another, a region's condition holding for
    the returned region and for no other.  For an undefined band triple
    (all three NaN) either script returns below-lower, although the
    condition of no region holds. *)
Theorem position_regions :
  (forall price upper middle lower : float,
      is_finite price = true ->
      is_nan upper = false -> is_nan middle = false -> is_nan lower = false ->
      Spec.first_region price upper middle lower
      = Some (History.position price upper middle lower) /\
      ((lower <=? middle) = true -> (middle <=? upper) = true ->
       forall r : region,
         History.position price upper middle lower = r
         <-> Spec.region_condition r price upper middle lower = true) /\
      Realtime.position price upper middle lower
      = History.position price upper middle lower) /\
  (forall price upper middle lower : float,
      is_nan upper = true -> is_nan middle = true -> is_nan lower = true ->
      History.position price upper middle lower = BelowLower /\
      Realtime.position price upper middle lower = BelowLower /\
      Spec.first_region price upper middle lower = None).
Proof.
  split; [exact position_defined_bands|].
  intros price upper middle lower Nu Nm Nl.
  destruct (nan_band price upper Nu) as [Gu Lu].
  destruct (nan_band price middle Nm) as [Gm Lm].
  destruct (nan_band price lower Nl) as [Gl Ll].
  unfold History.position, Realtime.position, Spec.first_region,
    Spec.region_condition. cbn [find].
  rewrite Gu, Gm, Gl, Lu, Lm, Ll. repeat split; reflexivity.
Qed.

Lemma position_regions_witness :
  is_finite 10.4 = true /\
  is_nan 10.6 = false /\ is_nan 10.1 = false /\ is_nan 9.8 = false /\
  (9.8 <=? 10.1) = true /\ (10.1 <=? 10.6) = true /\
  Spec.first_region 10.4 10.6 10.1 9.8 = Some (History.position 10.4 10.6 10.1 9.8) /\
  (forall r : region,
      History.position 10.4 10.6 10.1 9.8 = r
      <-> Spec.region_condition r 10.4 10.6 10.1 9.8 = true) /\
  is_nan nan = true /\
  History.position 10.4 nan nan nan = BelowLower /\
  Spec.first_region 10.4 nan nan nan = None.
Proof.
  pose proof (proj1 position_regions 10.4 10.6 10.1 9.8
                eq_refl eq_refl eq_refl eq_refl) as (P1 & P2 & _).
  pose proof (proj2 position_regions 10.4 nan nan nan
                eq_refl eq_refl eq_refl) as (Q1 & _ & Q3).
  do 6 (split; [reflexivity|]).
  split; [exact P1|]. split; [exact (P2 eq_refl eq_refl)|].
  split; [reflexivity|]. split; [exact Q1 | exact Q3].
Defined.

(** Before the window of the band calculator is filled the bands are NaN
    and every price lands in the last branch. *)
Lemma position_undefined_bands (price : float) :
  History.position price nan nan nan = BelowLower.
Proof.
  unfold History.position.
  assert (N : forall x, (nan <? x) = false).
  { intros x. rewrite FloatAxioms.ltb_spec. reflexivity. }
  now rewrite N.
Qed.

End Position.

(** ** The percent-B calculator *)

Module PercentB.

Import History.
Local Open Scope float_scope.

(** C7: percent-B is the quotient (price - lower) / (upper - lower) as
    computed, with values above 1 and below 0 left as they are; when upper
    equals lower the quotient is not a finite number (a NaN, or an infinity
    when the price differs from the band), and since a float64 division
    raises nothing the computation is total; the number a run prints in its
    bucket message is that quotient of the latest close and bands. *)
Theorem percent_b_quotient :
  (forall price upper lower : float,
      percent_b price upper lower = (price - lower) / (upper - lower)) /\
  (exists price upper lower : float,
      (upper =? lower) = false /\ (percent_b price upper lower >? 1) = true) /\
  (exists price upper lower : float,
      (upper =? lower) = false /\ (percent_b price upper lower <? 0) = true) /\
  (forall price upper lower : float,
      (upper =? lower) = true ->
      is_finite (percent_b price upper lower) = false) /\
  (forall CLOSE up mid lower : ndarray,
      aligned CLOSE up mid lower -> (2 <= length CLOSE)%nat ->
      exists r signals a,
        main CLOSE up mid lower = Ok r /\
        rep_signals r = Signals signals a /\
        forall b x, In (Positional b x) signals ->
          x = (back 1 CLOSE - back 1 lower) / (back 1 up - back 1 lower)).
Proof.
  split; [reflexivity|].
  split; [exists 12, 11, 9; split; reflexivity|].
  split; [exists 8, 11, 9; split; reflexivity|].
  split.
  - intros price upper lower E.
    apply Degenerate.inf_or_nan_not_finite, Advisory.percent_b_degenerate, E.
  - intros CLOSE up mid lower A H.
    exists (report_of CLOSE up mid lower), (signals_of CLOSE up mid lower),
      (advice_of CLOSE up mid lower).
    split; [apply Run.main_aligned; [assumption|lia]|].
    split; [now apply Advisory.report_signals|].
    intros b x I.
    assert (I' : In (Positional b x)
                   (filter Spec.is_positional (signals_of CLOSE up mid lower)))
      by (apply filter_In; split; [exact I|reflexivity]).
    rewrite Aggregator.positional_emitted in I'.
    destruct (crossings_of CLOSE up mid lower); [|destruct I'].
    destruct I' as [I'|[]]. injection I' as _ <-. reflexivity.
Qed.

Lemma percent_b_quotient_witness :
  (10 =? 10) = true /\ is_finite (percent_b 10 10 10) = false.
Proof.
  split; [reflexivity|].
  apply (proj1 (proj2 (proj2 (proj2 percent_b_quotient))) 10 10 10). reflexivity.
Defined.

(** The two outcomes of a zero band width. *)
Lemma percent_b_zero_width_examples :
  percent_b 10 10 10 = nan /\ percent_b 11 10 10 = infinity
  /\ percent_b 9 10 10 = neg_infinity.
Proof. repeat split; reflexivity. Qed.

End PercentB.

(** ** The empty series *)

Module EmptySeries.

Import History.
Local Open Scope float_scope.

(** C9 fails on the script: line 24 indexes [CLOSE[-1]] before the length
    test of line 72 is reached, so an empty series ends the run with an
    uncaught IndexError, whatever the band arrays are; the data-shortage
    line is printed for a series of one bar only. *)
Theorem empty_series_raises :
  analyse [] = Raise IndexError /\
  (forall up mid lower : ndarray, main [] up mid lower = Raise IndexError) /\
  (forall x : float,
      exists r, analyse [x] = Ok r /\ rep_signals r = DataShortage).
Proof.
  split; [reflexivity|]. split; [reflexivity|].
  intros x.
  destruct (Run.analyse_nonempty [x]) as (up & mid & lower & _ & E);
    [simpl; lia|].
  exists (report_of [x] up mid lower). split; [exact E|reflexivity].
Qed.

End EmptySeries.

(** ** The width analyzer *)

Module WidthAnalyzer.

Import History.
Local Open Scope float_scope.

Lemma trend_cases (current reference : float) :
  (trend current reference = Expanding
   <-> (current >? reference * 1.05) = true) /\
  (trend current reference = Contracting
   <-> (current >? reference * 1.05) = false
       /\ (current <? reference * 0.95) = true) /\
  (trend current reference = Stable
   <-> (current >? reference * 1.05) = false
       /\ (current <? reference * 0.95) = false).
Proof.
  unfold trend.
  destruct (current >? reference * 1.05), (current <? reference * 0.95);
    repeat split; intros; try discriminate; try reflexivity;
    repeat match goal with H : _ /\ _ |- _ => destruct H end;
    try discriminate.
Qed.

Lemma width_state_aligned (up mid lower : ndarray) :
  length up = length mid -> length lower = length mid ->
  (1 <= length mid)%nat ->
  Realtime.width_state up mid lower
  = Ok (back 1 (widths up mid lower),
        trend (back 1 (widths up mid lower))
              (reference_width (widths up mid lower))).
Proof.
  intros Hu Hl H. unfold Realtime.width_state.
  change Realtime.boll_width with boll_width.
  change Realtime.prev_width with prev_width.
  change Realtime.trend with trend.
  rewrite Run.boll_width_aligned by assumption. cbn [bind].
  assert (LW : length (widths up mid lower) = length mid)
    by (now apply Run.length_widths).
  rewrite (ArrayFacts.getitem_neg (widths up mid lower) 1) by (simpl; lia).
  cbn [bind]. rewrite Run.prev_width_nonempty by lia. reflexivity.
Qed.

(** C5, as the claim states it, fails twice.  On six bars the script
    compares the latest width with the width four indices earlier
    ([boll_width[-5]]), not five: a width that doubled between the first and
    the second bar and stayed put is reported stable.  On five bars, where
    both readings take the first width, the script tests
    [current > previous * 1.05] and not the ratio: the rounding of the
    product and of the quotient can disagree. *)
Lemma width_trend_not_latest_minus_five :
  (exists r,
      main [10; 10; 10; 10; 10; 10]
           [11; 12; 12; 12; 12; 12]
           [10; 10; 10; 10; 10; 10]
           [9; 8; 8; 8; 8; 8] = Ok r /\
      rep_trend r = Stable /\
      Spec.width_trend_of
        (widths [11; 12; 12; 12; 12; 12] [10; 10; 10; 10; 10; 10]
                [9; 8; 8; 8; 8; 8]) = Expanding) /\
  (exists r,
      main [10.65; 10.65; 10.65; 10.65; 10.65]
           [11.61; 11.61; 11.61; 11.61; 11.658]
           [10.65; 10.65; 10.65; 10.65; 10.65]
           [9.69; 9.69; 9.69; 9.69; 9.642] = Ok r /\
      rep_trend r = Expanding /\
      Spec.width_trend_of
        (widths [11.61; 11.61; 11.61; 11.61; 11.658]
                [10.65; 10.65; 10.65; 10.65; 10.65]
                [9.69; 9.69; 9.69; 9.69; 9.642]) = Stable).
Proof.
  split; eexists; (split; [vm_compute; reflexivity|]); split; reflexivity.
Qed.

(** C5, amended: both scripts compare the band width at the latest index
    with the width at the fifth index from the end (latest - 4), or with the
    first width when there are fewer than five; the trend is expanding when
    the latest width exceeds 1.05 times that reference, contracting when it
    does not and is below 0.95 times the reference, and stable otherwise. *)
Theorem width_trend_fifth_from_last (CLOSE up mid lower : ndarray) :
  aligned CLOSE up mid lower -> (1 <= length CLOSE)%nat ->
  let W := widths up mid lower in
  let current := nth (length W - 1) W nan in
  let reference :=
    if (5 <=? length W)%nat then nth (length W - 5) W nan else nth 0 W nan in
  exists r,
    main CLOSE up mid lower = Ok r /\
    Realtime.width_state up mid lower = Ok (rep_width r, rep_trend r) /\
    rep_width r = current /\
    (rep_trend r = Expanding <-> (current >? reference * 1.05) = true) /\
    (rep_trend r = Contracting
     <-> (current >? reference * 1.05) = false
         /\ (current <? reference * 0.95) = true) /\
    (rep_trend r = Stable
     <-> (current >? reference * 1.05) = false
         /\ (current <? reference * 0.95) = false).
Proof.
  intros A H W current reference. pose proof A as (Hu & Hm & Hl).
  exists (report_of CLOSE up mid lower).
  split; [now apply Run.main_aligned|].
  split; [apply width_state_aligned; lia|].
  split; [reflexivity|].
  apply (trend_cases current reference).
Qed.

Lemma width_trend_fifth_from_last_witness :
  aligned [10; 10; 10; 10; 10; 10] [11; 12; 12; 12; 12; 12]
          [10; 10; 10; 10; 10; 10] [9; 8; 8; 8; 8; 8] /\
  (1 <= length [10; 10; 10; 10; 10; 10]%float)%nat /\
  exists r,
    main [10; 10; 10; 10; 10; 10] [11; 12; 12; 12; 12; 12]
         [10; 10; 10; 10; 10; 10] [9; 8; 8; 8; 8; 8] = Ok r /\
    rep_width r = 0.4 /\ rep_trend r = Stable.
Proof.
  assert (A : aligned [10; 10; 10; 10; 10; 10] [11; 12; 12; 12; 12; 12]
                      [10; 10; 10; 10; 10; 10] [9; 8; 8; 8; 8; 8])
    by (repeat split; reflexivity).
  assert (L : (1 <= length [10; 10; 10; 10; 10; 10]%float)%nat) by (simpl; lia).
  split; [exact A|]. split; [exact L|].
  destruct (width_trend_fifth_from_last _ _ _ _ A L)
    as (r & E & _ & Wd & _ & _ & St).
  exists r. split; [exact E|]. split; [exact Wd|].
  apply St. split; reflexivity.
Defined.

End WidthAnalyzer.

(** ** The persistence signal *)

Module Persistence.

Import History.
Local Open Scope float_scope.

(** The continuation messages of a run: the strong one from four closes
    above the middle band on, the weak one up to one close above it. *)
Lemma persistence_emitted (CLOSE up mid lower : ndarray) :
  filter Spec.is_persistence (signals_of CLOSE up mid lower)
  = let n := Spec.closes_above CLOSE mid in
    if (4 <=? n)%nat then [StrongContinuation n]
    else if (n <=? 1)%nat then [WeakContinuation (5 - n)]
    else [].
Proof.
  assert (E : filter Spec.is_persistence
                (width_signal (ratio_of up mid lower)
                   (positional (percent_b_of CLOSE up lower)
                      (crossings_of CLOSE up mid lower))) = []).
  { rewrite Aggregator.filter_width_signal,
      Aggregator.filter_positional_out by reflexivity.
    apply Aggregator.filter_none. intros s Hs.
    apply Crossing.crossing_signals_are_crossings in Hs.
    destruct s; try discriminate; reflexivity. }
  unfold signals_of, persistence. cbv zeta.
  destruct (4 <=? Spec.closes_above CLOSE mid)%nat.
  - rewrite filter_app, E. reflexivity.
  - destruct (Spec.closes_above CLOSE mid <=? 1)%nat.
    + rewrite filter_app, E. reflexivity.
    + exact E.
Qed.

(** Where each of the last five closes is strictly above or strictly below
    a defined middle band, the closes above and the closes below add up to
    five, and the script emits what section 4.7 describes. *)
Lemma counts_complement (l : list (float * float)) :
  Forall (fun p => ((fst p <? snd p) || (fst p >? snd p))%bool = true) l ->
  Nat.add (count_true (map (fun p => fst p >? snd p) l))
          (count_true (map (fun p => fst p <? snd p) l)) = length l.
Proof.
  unfold count_true. induction 1 as [|[c m] l H _ IH]; [reflexivity|].
  cbn [map filter fst snd length] in *.
  pose proof (IEEEFacts.ltb_antisym c m) as A.
  destruct (c <? m), (m <? c); cbn [orb] in H; try discriminate;
    cbn [length]; try (specialize (A eq_refl); discriminate); lia.
Qed.

Lemma persistence_without_ties (CLOSE up mid lower : ndarray) :
  length mid = length CLOSE -> (5 <= length CLOSE)%nat ->
  Forall (fun p => ((fst p <? snd p) || (fst p >? snd p))%bool = true)
         (combine (last_k 5 CLOSE) (last_k 5 mid)) ->
  filter Spec.is_persistence (signals_of CLOSE up mid lower)
  = match Spec.persistence_signal CLOSE mid with
    | Some Spec.Strong => [StrongContinuation (Spec.closes_above CLOSE mid)]
    | Some Spec.Weak => [WeakContinuation (Spec.closes_below CLOSE mid)]
    | None => []
    end.
Proof.
  intros Hm H5 S. rewrite persistence_emitted. cbv zeta.
  apply counts_complement in S.
  rewrite length_combine, !ArrayFacts.length_last_k in S.
  unfold Spec.persistence_signal.
  change (count_true (map (fun p => fst p >? snd p)
                          (combine (last_k 5 CLOSE) (last_k 5 mid))))
    with (Spec.closes_above CLOSE mid) in S.
  change (count_true (map (fun p => fst p <? snd p)
                          (combine (last_k 5 CLOSE) (last_k 5 mid))))
    with (Spec.closes_below CLOSE mid) in S.
  destruct (Nat.leb_spec 4 (Spec.closes_above CLOSE mid)); [reflexivity|].
  destruct (Nat.leb_spec (Spec.closes_above CLOSE mid) 1),
           (Nat.leb_spec 4 (Spec.closes_below CLOSE mid));
    try reflexivity; try lia.
  f_equal. f_equal. lia.
Qed.

(** C6 fails on the script: on twenty-four closes of 10 the last five
    closes all tie the middle band, none sits below it, and the script
    prints the weak-continuation message for five days below the band; the
    claim has no persistence signal there. *)
Theorem weak_continuation_on_ties :
  exists up mid lower r signals a,
    MyTT.BOLL (repeat 10 24%nat) = (up, mid, lower) /\
    analyse (repeat 10 24%nat) = Ok r /\
    rep_signals r = Signals signals a /\
    In (WeakContinuation 5) signals /\
    Spec.closes_below (repeat 10 24%nat) mid = 0%nat /\
    Spec.persistence_signal (repeat 10 24%nat) mid = None.
Proof.
  do 6 eexists.
  split; [vm_compute; reflexivity|].
  split; [vm_compute; reflexivity|].
  split; [reflexivity|].
  split; [right; left; reflexivity|].
  split; reflexivity.
Qed.

(** The same on a series whose window has just filled: of the last five
    closes of these twenty-one bars one is below the middle band, three
    face an undefined band, and the message counts four days below. *)
Lemma weak_continuation_on_undefined_band :
  exists up mid lower r signals a,
    MyTT.BOLL (repeat 10 19%nat ++ [12; 10.05]) = (up, mid, lower) /\
    analyse (repeat 10 19%nat ++ [12; 10.05]) = Ok r /\
    rep_signals r = Signals signals a /\
    In (WeakContinuation 4) signals /\
    Spec.closes_below (repeat 10 19%nat ++ [12; 10.05]) mid = 1%nat.
Proof.
  do 6 eexists.
  split; [vm_compute; reflexivity|].
  split; [vm_compute; reflexivity|].
  split; [reflexivity|].
  split; [|reflexivity].
  vm_compute. tauto.
Qed.

End Persistence.

(** ** Further facts on the float64 order and on NaN *)

Module Order.

Import IEEE IEEEFacts.
Local Open Scope float_scope.

Ltac order_cases ex ey ez mx my mz :=
  change (Pos.compare_cont Eq) with Pos.compare;
  destruct (Z.compare_spec ex ey), (Z.compare_spec ey ez), (Z.compare_spec ex ez);
  try discriminate; try reflexivity; try lia; subst;
  destruct (Pos.compare_spec mx my), (Pos.compare_spec my mz),
           (Pos.compare_spec mx mz);
  simpl; try discriminate; try reflexivity; try lia.

Lemma SFltb_leb_trans (x y z : spec_float) :
  SFltb x y = true -> SFleb y z = true -> SFltb x z = true.
Proof.
  unfold SFltb, SFleb.
  destruct x as [sx|sx| |sx mx ex], y as [sy|sy| |sy my ey], z as [sz|sz| |sz mz ez];
    simpl; try discriminate; try reflexivity;
    try (destruct sx; simpl; try discriminate; try reflexivity);
    try (destruct sy; simpl; try discriminate; try reflexivity);
    try (destruct sz; simpl; try discriminate; try reflexivity).
  all: order_cases ex ey ez mx my mz.
Qed.

Lemma SFleb_ltb_trans (x y z : spec_float) :
  SFleb x y = true -> SFltb y z = true -> SFltb x z = true.
Proof.
  unfold SFltb, SFleb.
  destruct x as [sx|sx| |sx mx ex], y as [sy|sy| |sy my ey], z as [sz|sz| |sz mz ez];
    simpl; try discriminate; try reflexivity;
    try (destruct sx; simpl; try discriminate; try reflexivity);
    try (destruct sy; simpl; try discriminate; try reflexivity);
    try (destruct sz; simpl; try discriminate; try reflexivity).
  all: order_cases ex ey ez mx my mz.
Qed.

Lemma ltb_leb_trans (x y z : float) :
  (x <? y) = true -> (y <=? z) = true -> (x <? z) = true.
Proof. rewrite !FloatAxioms.ltb_spec, FloatAxioms.leb_spec. apply SFltb_leb_trans. Qed.

Lemma leb_ltb_trans (x y z : float) :
  (x <=? y) = true -> (y <? z) = true -> (x <? z) = true.
Proof. rewrite !FloatAxioms.ltb_spec, FloatAxioms.leb_spec. apply SFleb_ltb_trans. Qed.

Lemma ltb_trans (x y z : float) :
  (x <? y) = true -> (y <? z) = true -> (x <? z) = true.
Proof.
  intros H1 H2. apply (ltb_leb_trans x y z H1). now apply ltb_leb.
Qed.

Lemma ltb_irrefl (x : float) : (x <? x) = false.
Proof.
  destruct (x <? x) eqn:E; [|reflexivity].
  pose proof (ltb_antisym x x E). congruence.
Qed.

(** [x < y] excludes [y < z'] for every [z' <= x]: the two sides of a
    threshold pair. *)
Lemma ltb_exclusive (a b x : float) :
  (a <=? b) = true -> (x <? a) = true -> (b <? x) = false.
Proof.
  intros AB XA. destruct (b <? x) eqn:E; [|reflexivity].
  pose proof (ltb_leb_trans x a b XA AB) as XB.
  pose proof (ltb_antisym x b XB). congruence.
Qed.

Lemma nan_spec (x : float) : is_nan x = true <-> Prim2SF x = S754_nan.
Proof.
  rewrite is_nan_spec. destruct (Prim2SF x); simpl; split; congruence.
Qed.

Lemma ltb_nan_l (x y : float) : is_nan x = true -> (x <? y) = false.
Proof.
  intros N. apply nan_spec in N. rewrite FloatAxioms.ltb_spec, N. reflexivity.
Qed.

Lemma ltb_nan_r (x y : float) : is_nan y = true -> (x <? y) = false.
Proof.
  intros N. apply nan_spec in N. rewrite FloatAxioms.ltb_spec, N.
  unfold SFltb. now destruct (Prim2SF x).
Qed.

Lemma leb_nan_l (x y : float) : is_nan x = true -> (x <=? y) = false.
Proof.
  intros N. apply nan_spec in N. rewrite FloatAxioms.leb_spec, N. reflexivity.
Qed.

Lemma leb_nan_r (x y : float) : is_nan y = true -> (x <=? y) = false.
Proof.
  intros N. apply nan_spec in N. rewrite FloatAxioms.leb_spec, N.
  unfold SFleb. now destruct (Prim2SF x).
Qed.

Lemma sub_nan_r (x y : float) : is_nan y = true -> is_nan (x - y) = true.
Proof.
  intros N. apply nan_spec in N. apply nan_spec. rewrite sub_spec, N.
  now destruct (Prim2SF x).
Qed.

Lemma sub_nan_l (x y : float) : is_nan x = true -> is_nan (x - y) = true.
Proof.
  intros N. apply nan_spec in N. apply nan_spec. rewrite sub_spec, N.
  reflexivity.
Qed.

Lemma div_nan_r (x y : float) : is_nan y = true -> is_nan (x / y) = true.
Proof.
  intros N. apply nan_spec in N. apply nan_spec. rewrite div_spec, N.
  now destruct (Prim2SF x).
Qed.

Lemma div_nan_l (x y : float) : is_nan x = true -> is_nan (x / y) = true.
Proof.
  intros N. apply nan_spec in N. apply nan_spec. rewrite div_spec, N.
  reflexivity.
Qed.

Lemma mul_nan_l (x y : float) : is_nan x = true -> is_nan (x * y) = true.
Proof.
  intros N. apply nan_spec in N. apply nan_spec. rewrite mul_spec, N.
  reflexivity.
Qed.

Lemma zero_or_nan_sign (x : float) :
  zero_or_nan (Prim2SF x) = true -> (x >? 0) = false /\ (x <? 0) = false.
Proof.
  rewrite !FloatAxioms.ltb_spec. intros Z.
  destruct (Prim2SF x); try discriminate; split; reflexivity.
Qed.

Lemma inf_or_nan_of_nan (x : float) :
  is_nan x = true -> inf_or_nan (Prim2SF x) = true.
Proof. intros N. apply nan_spec in N. now rewrite N. Qed.

End Order.

(** ** The first script as a whole: when it raises, what it prints *)

Module RunEdges.

Import History.
Local Open Scope float_scope.

(** On band arrays aligned with the closes the script raises exactly when
    the series is empty (the IndexError of line 24); otherwise it runs to
    the end, and it prints the data-shortage line of line 145 exactly when
    the series has a single bar. *)
Theorem history_raises_iff_empty (CLOSE up mid lower : ndarray) :
  aligned CLOSE up mid lower ->
  (main CLOSE up mid lower = Raise IndexError <-> CLOSE = []) /\
  (CLOSE <> [] ->
   exists r, main CLOSE up mid lower = Ok r /\
             (rep_signals r = DataShortage <-> length CLOSE = 1%nat)).
Proof.
  intros A. destruct CLOSE as [|c CLOSE].
  - split; [split; reflexivity|]. congruence.
  - assert (L : (1 <= length (c :: CLOSE))%nat) by (simpl; lia).
    pose proof (Run.main_aligned _ _ _ _ A L) as E.
    split.
    + rewrite E. split; discriminate.
    + intros _. exists (report_of (c :: CLOSE) up mid lower).
      split; [exact E|]. unfold report_of. cbn [rep_signals].
      destruct (Nat.leb_spec 2 (length (c :: CLOSE))); split;
        intros; try discriminate; try reflexivity; lia.
Qed.

Lemma history_raises_iff_empty_witness :
  aligned [10.2] [nan] [nan] [nan] /\
  exists r, main [10.2] [nan] [nan] [nan] = Ok r /\
            (rep_signals r = DataShortage <-> length [10.2] = 1%nat).
Proof.
  assert (A : aligned [10.2] [nan] [nan] [nan]) by (repeat split; reflexivity).
  split; [exact A|].
  apply (proj2 (history_raises_iff_empty [10.2] [nan] [nan] [nan] A)).
  discriminate.
Defined.

Lemma width_signal_app (wc : float) (signals : list signal) :
  width_signal wc signals = signals ++ width_signal wc [].
Proof.
  unfold width_signal.
  destruct (wc >? 1.1); [reflexivity|].
  destruct (wc <? 0.9); [reflexivity|]. now rewrite app_nil_r.
Qed.

Lemma persistence_app (n : nat) (signals : list signal) :
  persistence n signals = signals ++ persistence n [].
Proof.
  unfold persistence.
  destruct (4 <=? n)%nat; [reflexivity|].
  destruct (n <=? 1)%nat; [reflexivity|]. now rewrite app_nil_r.
Qed.

Lemma positional_app (pb : float) (signals : list signal) :
  positional pb signals
  = signals ++ match signals with
               | [] => [Positional (bucket_of pb) pb]
               | _ :: _ => []
               end.
Proof. destruct signals; [reflexivity|]. cbn [positional]. now rewrite app_nil_r. Qed.

Lemma width_part (wc : float) :
  filter Spec.is_width (width_signal wc []) = width_signal wc [] /\
  (length (width_signal wc []) <= 1)%nat.
Proof.
  unfold width_signal.
  destruct (wc >? 1.1); [split; [reflexivity|simpl; lia]|].
  destruct (wc <? 0.9); split; try reflexivity; simpl; lia.
Qed.

Lemma persistence_part (n : nat) :
  filter Spec.is_persistence (persistence n []) = persistence n [] /\
  (length (persistence n []) <= 1)%nat.
Proof.
  unfold persistence.
  destruct (4 <=? n)%nat; [split; [reflexivity|simpl; lia]|].
  destruct (n <=? 1)%nat; split; try reflexivity; simpl; lia.
Qed.

Lemma crossings_length (CLOSE up mid lower : ndarray) :
  (length (crossings_of CLOSE up mid lower) <= 2)%nat.
Proof.
  unfold crossings_of. rewrite Crossing.crossing_signals_split, length_app.
  pose proof (Crossing.band_crossing_chain
                (back 2 CLOSE) (back 2 up) (back 2 lower)
                (back 1 CLOSE) (back 1 up) (back 1 lower)) as B.
  pose proof (Crossing.mid_crossing_chain
                (back 2 CLOSE) (back 2 mid) (back 1 CLOSE) (back 1 mid)) as M.
  cbv zeta in B, M.
  destruct B as (_ & _ & _ & _ & _ & B), M as (_ & _ & _ & M). lia.
Qed.

(** The four stages, each appended to the list the earlier ones left. *)
Lemma signals_of_stages (CLOSE up mid lower : ndarray) :
  signals_of CLOSE up mid lower
  = crossings_of CLOSE up mid lower
    ++ match crossings_of CLOSE up mid lower with
       | [] => [Positional (bucket_of (percent_b_of CLOSE up lower))
                           (percent_b_of CLOSE up lower)]
       | _ :: _ => []
       end
    ++ width_signal (ratio_of up mid lower) []
    ++ persistence (Spec.closes_above CLOSE mid) [].
Proof.
  unfold signals_of.
  rewrite persistence_app, width_signal_app, positional_app.
  now rewrite <- !app_assoc.
Qed.

Lemma width_kept (CLOSE up mid lower : ndarray) :
  filter Spec.is_width (signals_of CLOSE up mid lower)
  = width_signal (ratio_of up mid lower) [].
Proof.
  unfold signals_of.
  rewrite Aggregator.filter_persistence by reflexivity.
  rewrite width_signal_app, filter_app.
  rewrite Aggregator.filter_positional_out by reflexivity.
  rewrite (Aggregator.filter_none Spec.is_width (crossings_of CLOSE up mid lower)).
  - apply width_part.
  - intros s Hs. apply Crossing.crossing_signals_are_crossings in Hs.
    destruct s; try discriminate; reflexivity.
Qed.

(** In every run over at least two bars the printed signal list is made of
    the crossing signals, then the bucket signal, then the width signal,
    then the continuation signal, in that order; it has between one and
    four entries, so the no-crossing line of line 131 is never printed. *)
Theorem signals_in_stage_order (CLOSE up mid lower : ndarray) :
  aligned CLOSE up mid lower -> (2 <= length CLOSE)%nat ->
  exists r signals a,
    main CLOSE up mid lower = Ok r /\
    rep_signals r = Signals signals a /\
    signals = filter Spec.is_crossing signals
              ++ filter Spec.is_positional signals
              ++ filter Spec.is_width signals
              ++ filter Spec.is_persistence signals /\
    (1 <= length signals <= 4)%nat /\
    print_signals signals = map SignalLine signals.
Proof.
  intros A H.
  exists (report_of CLOSE up mid lower), (signals_of CLOSE up mid lower),
    (advice_of CLOSE up mid lower).
  split; [apply Run.main_aligned; [assumption|lia]|].
  split; [now apply Advisory.report_signals|].
  split; [|split].
  - rewrite Aggregator.crossings_kept, Aggregator.positional_emitted,
      width_kept, Persistence.persistence_emitted.
    rewrite signals_of_stages at 1. unfold persistence. reflexivity.
  - rewrite signals_of_stages, !length_app.
    pose proof (crossings_length CLOSE up mid lower) as C.
    pose proof (proj2 (width_part (ratio_of up mid lower))) as W.
    pose proof (proj2 (persistence_part (Spec.closes_above CLOSE mid))) as P.
    destruct (crossings_of CLOSE up mid lower) as [|s cs];
      cbn [length] in *; lia.
  - apply Aggregator.no_crossing_line_never_printed.
Qed.

Lemma signals_in_stage_order_witness :
  aligned [9; 11] [10; 10] [8; 8] [5; 5] /\
  (2 <= length [9; 11]%float)%nat /\
  exists r signals a,
    main [9; 11] [10; 10] [8; 8] [5; 5] = Ok r /\
    rep_signals r = Signals signals a /\
    signals = filter Spec.is_crossing signals
              ++ filter Spec.is_positional signals
              ++ filter Spec.is_width signals
              ++ filter Spec.is_persistence signals /\
    (1 <= length signals <= 4)%nat /\
    print_signals signals = map SignalLine signals.
Proof.
  assert (A : aligned [9; 11] [10; 10] [8; 8] [5; 5])
    by (repeat split; reflexivity).
  assert (L : (2 <= length [9; 11]%float)%nat) by (simpl; lia).
  split; [exact A|]. split; [exact L|].
  exact (signals_in_stage_order [9; 11] [10; 10] [8; 8] [5; 5] A L).
Defined.

End RunEdges.

(** ** How the signals, the regions and the advice fit together *)

Module Consistency.

Import History IEEEFacts.
Local Open Scope float_scope.





(** The bucket never goes down when percent-B goes up: the six buckets are
    cut by increasing thresholds. *)
Theorem bucket_monotone (pb1 pb2 : float) :
  (pb1 <=? pb2) = true ->
  (bucket_rank (bucket_of pb1) <= bucket_rank (bucket_of pb2))%nat.
Proof.
  intros H. unfold bucket_of.
  pose proof (fun c => Order.ltb_leb_trans c pb1 pb2) as T.
  pose proof (T 0.9) as T9. pose proof (T 0.7) as T7.
  pose proof (T 0.5) as T5. pose proof (T 0.3) as T3.
  pose proof (T 0.1) as T1. clear T.
  destruct (pb1 >? 0.9), (pb1 >? 0.7), (pb1 >? 0.5), (pb1 >? 0.3), (pb1 >? 0.1);
    try rewrite (T9 eq_refl H); try rewrite (T7 eq_refl H);
    try rewrite (T5 eq_refl H); try rewrite (T3 eq_refl H);
    try rewrite (T1 eq_refl H);
    destruct (pb2 >? 0.9), (pb2 >? 0.7), (pb2 >? 0.5), (pb2 >? 0.3),
             (pb2 >? 0.1); cbn [bucket_rank]; lia.
Qed.

Lemma bucket_monotone_witness :
  (0.35 <=? 0.8) = true /\
  (bucket_rank (bucket_of 0.35) <= bucket_rank (bucket_of 0.8))%nat.
Proof.
  split; [reflexivity|]. apply (bucket_monotone 0.35 0.8). reflexivity.
Defined.

(** The advice agrees with the bucket of the same percent-B: the
    reduce-exposure advice is given in the near-upper bucket only, the
    watch-for-rebound advice in the near-lower bucket only, and the
    range-bound advice in one of the two neutral buckets only. *)
Theorem advice_matches_bucket (percent_b width_change : float) :
  (advise percent_b width_change = ReduceExposure ->
   bucket_of percent_b = NearUpper) /\
  (advise percent_b width_change = WatchRebound ->
   bucket_of percent_b = NearLower) /\
  (advise percent_b width_change = RangeBound ->
   bucket_of percent_b = NeutralStrong \/ bucket_of percent_b = NeutralWeak).
Proof.
  unfold advise, bucket_of.
  pose proof (fun c L => Order.ltb_exclusive 0.1 c percent_b L) as Lo.
  pose proof (Lo 0.9 eq_refl) as L9. pose proof (Lo 0.7 eq_refl) as L7.
  pose proof (Lo 0.5 eq_refl) as L5. pose proof (Lo 0.3 eq_refl) as L3.
  pose proof (Lo 0.1 eq_refl) as L1. clear Lo.
  pose proof (Order.ltb_exclusive 0.7 0.9 percent_b eq_refl) as H9.
  pose proof (Order.ltb_exclusive 0.7 0.7 percent_b eq_refl) as H7.
  destruct (percent_b <? 0.1);
    [rewrite (L9 eq_refl), (L7 eq_refl), (L5 eq_refl), (L3 eq_refl), (L1 eq_refl)
    | clear L9 L7 L5 L3 L1].
  - cbn [andb]. destruct (width_change >? 1.05); cbn [andb];
      repeat split; intros; try discriminate; try reflexivity.
    all: destruct (0.3 <? percent_b), (percent_b <? 0.7), (width_change <? 0.9);
      cbn [andb] in *; discriminate.
  - destruct (percent_b <? 0.7);
      [rewrite (H9 eq_refl), (H7 eq_refl) | ].
    + cbn [andb].
      destruct (percent_b >? 0.5), (percent_b >? 0.3), (width_change <? 0.9);
        cbn [andb]; repeat split; intros; try discriminate; auto.
    + rewrite !andb_false_r. cbn [andb].
      destruct (percent_b >? 0.9), (width_change >? 1.05); cbn [andb];
        repeat split; intros; try discriminate; reflexivity.
Qed.

End Consistency.

Module Coherence.

Import History IEEEFacts.
Local Open Scope float_scope.

Lemma advice_matches_bucket_witness :
  advise 0.95 1.2 = ReduceExposure /\ bucket_of 0.95 = NearUpper.
Proof.
  split; [reflexivity|].
  apply (proj1 (Consistency.advice_matches_bucket 0.95 1.2)). reflexivity.
Defined.

Lemma crossing_fired_condition (pp pu pm pl cp cu cm cl : float) (s : signal) :
  In s (crossing_signals pp pu pm pl cp cu cm cl) ->
  Spec.crossing_condition s pp pu pm pl cp cu cm cl = true.
Proof.
  rewrite Crossing.crossing_signals_split, in_app_iff.
  pose proof (Crossing.band_crossing_chain pp pu pl cp cu cl) as B.
  pose proof (Crossing.mid_crossing_chain pp pm cp cm) as M.
  cbv zeta in B, M.
  destruct B as (B1 & B2 & B3 & B4 & _), M as (M1 & M2 & M3 & _).
  intros [I|I].
  - destruct (Crossing.band_crossing_kinds _ _ _ _ _ _ _ I)
      as [->|[->|[->| ->]]]; cbn [Spec.crossing_condition]; tauto.
  - destruct (M3 _ I) as [-> | ->]; cbn [Spec.crossing_condition]; tauto.
Qed.

Ltac fired C I :=
  match type of I with
  | In ?s _ => apply (C s eq_refl) in I
  end;
  cbn [Spec.crossing_condition] in I;
  apply andb_true_iff in I; destruct I as [_ I].

Lemma run_crossing_condition (CLOSE up mid lower : ndarray) (s : signal) :
  Spec.is_crossing s = true -> In s (signals_of CLOSE up mid lower) ->
  Spec.crossing_condition s
    (back 2 CLOSE) (back 2 up) (back 2 mid) (back 2 lower)
    (back 1 CLOSE) (back 1 up) (back 1 mid) (back 1 lower) = true.
Proof.
  intros K I. apply crossing_fired_condition.
  fold (crossings_of CLOSE up mid lower).
  rewrite <- Aggregator.crossings_kept. apply filter_In. now split.
Qed.

(** The crossing signals of a run agree with the region it reports for the
    latest close: an upper breakout is reported above the upper band, a
    bullish midline cross in one of the two upper regions, an upper
    rejection never above the upper band and a lower rebound never below the
    lower band; when the latest bands are ordered (lower <= middle <=
    upper) a lower breakdown is reported below the lower band and a bearish
    midline cross in one of the two lower regions. *)
Theorem crossings_match_position (CLOSE up mid lower : ndarray) :
  aligned CLOSE up mid lower -> (2 <= length CLOSE)%nat ->
  exists r signals a,
    main CLOSE up mid lower = Ok r /\
    rep_signals r = Signals signals a /\
    (In UpperBreakout signals -> rep_position r = AboveUpper) /\
    (In MidBullish signals ->
     rep_position r = AboveUpper \/ rep_position r = UpperHalf) /\
    (In UpperRejection signals -> rep_position r <> AboveUpper) /\
    (In LowerRebound signals -> rep_position r <> BelowLower) /\
    ((rep_lower r <=? rep_mid r) = true -> (rep_mid r <=? rep_up r) = true ->
     (In LowerBreakdown signals -> rep_position r = BelowLower) /\
     (In MidBearish signals ->
      rep_position r = LowerHalf \/ rep_position r = BelowLower)).
Proof.
  intros A H.
  exists (report_of CLOSE up mid lower), (signals_of CLOSE up mid lower),
    (advice_of CLOSE up mid lower).
  split; [apply Run.main_aligned; [assumption|lia]|].
  split; [now apply Advisory.report_signals|].
  unfold report_of. cbn [rep_position rep_lower rep_mid rep_up].
  pose proof (fun s K => run_crossing_condition CLOSE up mid lower s K) as C.
  set (p := back 1 CLOSE) in *. set (u := back 1 up) in *.
  set (m := back 1 mid) in *. set (l := back 1 lower) in *.
  unfold position.
  repeat split.
  - intros I. fired C I. now rewrite I.
  - intros I. fired C I. rewrite I.
    destruct (p >? u); auto.
  - intros I. fired C I.
    rewrite (ltb_antisym _ _ I). destruct (p >? m), (p >? l); discriminate.
  - intros I. fired C I. rewrite I.
    destruct (p >? u), (p >? m); discriminate.
  - intros I. fired C I.
    pose proof (Order.ltb_leb_trans p l m I H0) as Pm.
    pose proof (Order.ltb_leb_trans p m u Pm H1) as Pu.
    now rewrite (ltb_antisym _ _ I), (ltb_antisym _ _ Pm), (ltb_antisym _ _ Pu).
  - intros I. fired C I.
    pose proof (Order.ltb_leb_trans p m u I H1) as Pu.
    rewrite (ltb_antisym _ _ I), (ltb_antisym _ _ Pu).
    destruct (p >? l); auto.
Qed.

Lemma crossings_match_position_witness :
  aligned [9.9; 10.6] [10.5; 10.5] [10.25; 10.2] [10; 9.9] /\
  (2 <= length [9.9; 10.6]%float)%nat /\
  exists r signals a,
    main [9.9; 10.6] [10.5; 10.5] [10.25; 10.2] [10; 9.9] = Ok r /\
    rep_signals r = Signals signals a /\
    In UpperBreakout signals /\ rep_position r = AboveUpper.
Proof.
  assert (A : aligned [9.9; 10.6] [10.5; 10.5] [10.25; 10.2] [10; 9.9])
    by (repeat split; reflexivity).
  assert (L : (2 <= length [9.9; 10.6]%float)%nat) by (simpl; lia).
  split; [exact A|]. split; [exact L|].
  destruct (crossings_match_position _ _ _ _ A L)
    as (r & signals & a & E & S & B & _).
  exists r, signals, a. split; [exact E|]. split; [exact S|].
  assert (I : In UpperBreakout signals).
  { rewrite Run.main_aligned in E by (assumption || (simpl; lia)).
    injection E as <-. rewrite Advisory.report_signals in S by exact L.
    injection S as <- _. vm_compute. tauto. }
  split; [exact I | exact (B I)].
Defined.

(** The width signal and the advice of a run never contradict each other:
    with the expanding signal in the list the advice is not the range-bound
    one, and with the contracting signal in the list it is neither the
    reduce-exposure nor the watch-for-rebound one. *)
Theorem width_signal_matches_advice (CLOSE up mid lower : ndarray) :
  aligned CLOSE up mid lower -> (2 <= length CLOSE)%nat ->
  exists r signals a,
    main CLOSE up mid lower = Ok r /\
    rep_signals r = Signals signals a /\
    (In WidthExpanding signals -> a <> RangeBound) /\
    (In WidthContracting signals -> a <> ReduceExposure /\ a <> WatchRebound) /\
    ~ (In WidthExpanding signals /\ In WidthContracting signals).
Proof.
  intros A H.
  exists (report_of CLOSE up mid lower), (signals_of CLOSE up mid lower),
    (advice_of CLOSE up mid lower).
  split; [apply Run.main_aligned; [assumption|lia]|].
  split; [now apply Advisory.report_signals|].
  pose proof (RunEdges.width_kept CLOSE up mid lower) as W.
  assert (F : forall s, Spec.is_width s = true ->
              In s (signals_of CLOSE up mid lower) ->
              In s (width_signal (ratio_of up mid lower) []))
    by (intros s Hs I; rewrite <- W; apply filter_In; split; assumption).
  unfold advice_of, advise. set (wc := ratio_of up mid lower) in *.
  set (pb := percent_b_of CLOSE up lower).
  pose proof (Order.ltb_exclusive 0.9 1.1 wc eq_refl) as X1.
  pose proof (Order.ltb_exclusive 0.9 1.05 wc eq_refl) as X2.
  unfold width_signal in F.
  split; [|split].
  - intros I. apply (F WidthExpanding eq_refl) in I.
    destruct (wc >? 1.1) eqn:E.
    + destruct (wc <? 0.9); [specialize (X1 eq_refl); congruence|].
      rewrite !andb_false_r.
      destruct ((pb >? 0.9) && (wc >? 1.05))%bool; [discriminate|].
      destruct ((pb <? 0.1) && (wc >? 1.05))%bool; discriminate.
    + destruct (wc <? 0.9); [destruct I as [I|[]]; discriminate|destruct I].
  - intros I. apply (F WidthContracting eq_refl) in I.
    destruct (wc >? 1.1); [destruct I as [I|[]]; discriminate|].
    destruct (wc <? 0.9); [|destruct I].
    rewrite (X2 eq_refl), !andb_false_r.
    destruct ((0.3 <? pb) && (pb <? 0.7) && true)%bool; split; discriminate.
  - intros [I J].
    apply (F WidthExpanding eq_refl) in I.
    apply (F WidthContracting eq_refl) in J.
    destruct (wc >? 1.1); [destruct J as [J|[]]; discriminate|].
    destruct (wc <? 0.9); [destruct I as [I|[]]; discriminate|destruct I].
Qed.

Lemma width_signal_matches_advice_witness :
  aligned [10; 10; 10; 10; 10.5] [11; 11; 11; 11; 12]
          [10; 10; 10; 10; 10] [9; 9; 9; 9; 8] /\
  (2 <= length [10; 10; 10; 10; 10.5]%float)%nat /\
  exists r signals a,
    main [10; 10; 10; 10; 10.5] [11; 11; 11; 11; 12]
         [10; 10; 10; 10; 10] [9; 9; 9; 9; 8] = Ok r /\
    rep_signals r = Signals signals a /\
    In WidthExpanding signals /\ a <> RangeBound /\
    ~ In WidthContracting signals.
Proof.
  assert (A : aligned [10; 10; 10; 10; 10.5] [11; 11; 11; 11; 12]
                      [10; 10; 10; 10; 10] [9; 9; 9; 9; 8])
    by (repeat split; reflexivity).
  assert (L : (2 <= length [10; 10; 10; 10; 10.5]%float)%nat) by (simpl; lia).
  split; [exact A|]. split; [exact L|].
  destruct (width_signal_matches_advice _ _ _ _ A L)
    as (r & signals & a & E & S & X & _ & N).
  exists r, signals, a. split; [exact E|]. split; [exact S|].
  assert (I : In WidthExpanding signals).
  { rewrite Run.main_aligned in E by (assumption || (simpl; lia)).
    injection E as <-. rewrite Advisory.report_signals in S by exact L.
    injection S as <- _. vm_compute. tauto. }
  split; [exact I|]. split; [exact (X I)|].
  intros J. apply N. now split.
Defined.

End Coherence.

(** ** Bands that are not defined yet, or have no width *)

Module Undefined.

Import History IEEE.
Local Open Scope float_scope.

Lemma back_repeat (k n : nat) : back k (repeat nan n) = nan.
Proof. unfold back. apply nth_repeat. Qed.

Lemma map2_repeat {A B C : Type} (f : A -> B -> C) (a : A) (b : B) (n : nat) :
  map2 f (repeat a n) (repeat b n) = repeat (f a b) n.
Proof.
  unfold map2. induction n as [|n IH]; [reflexivity|].
  cbn [repeat combine map fst snd]. now rewrite IH.
Qed.

Lemma widths_undefined (n : nat) :
  widths (repeat nan n) (repeat nan n) (repeat nan n) = repeat nan n.
Proof. unfold widths. now rewrite !map2_repeat. Qed.

(** No close is above a band that is NaN. *)
Lemma none_above_nan (closes bands : list float) :
  Forall (fun m => is_nan m = true) bands ->
  count_true (map2 (fun c m => c >? m) closes bands) = 0%nat.
Proof.
  unfold map2, count_true. intros F. revert closes.
  induction F as [|m bands N _ IH]; intros [|c closes]; try reflexivity.
  cbn [combine map filter fst snd]. rewrite (Order.ltb_nan_l m c N). apply IH.
Qed.

Lemma closes_above_undefined (CLOSE : ndarray) (n : nat) :
  Spec.closes_above CLOSE (repeat nan n) = 0%nat.
Proof.
  unfold Spec.closes_above. apply none_above_nan.
  apply Forall_forall. intros m I. unfold last_k in I.
  assert (I' : In m (repeat nan n)).
  { rewrite <- (firstn_skipn (length (repeat nan n) - 5) (repeat nan n)).
    apply in_or_app. now right. }
  apply repeat_spec in I'. now subst.
Qed.

Lemma bucket_of_nan (pb : float) : is_nan pb = true -> bucket_of pb = NearLower.
Proof.
  intros N. unfold bucket_of. now rewrite !(Order.ltb_nan_r _ pb N).
Qed.

Lemma crossing_undefined (pp cp : float) :
  crossing_signals pp nan nan nan cp nan nan nan = [].
Proof.
  unfold crossing_signals, band_crossing, mid_crossing.
  rewrite (Order.leb_nan_r pp nan eq_refl), (Order.leb_nan_l nan pp eq_refl).
  reflexivity.
Qed.

(** While the bands are undefined (all three arrays NaN, as before the
    window of the band calculator has filled) a run over at least two bars
    reports the same thing whatever the prices: the below-lower region, a
    stable width, a flat midline, the near-lower bucket with a NaN
    percent-B followed by the weak-continuation message for five days, and
    the trend-following advice. *)
Theorem undefined_bands_report (CLOSE : ndarray) :
  (2 <= length CLOSE)%nat ->
  let bands := repeat nan (length CLOSE) in
  exists r pb,
    main CLOSE bands bands bands = Ok r /\
    rep_position r = BelowLower /\
    rep_trend r = Stable /\
    rep_mid_trend r = Flat /\
    is_nan pb = true /\
    rep_signals r
    = Signals [Positional NearLower pb; WeakContinuation 5] FollowTrend.
Proof.
  intros H bands.
  assert (A : aligned CLOSE bands bands bands)
    by (unfold aligned, bands; now rewrite repeat_length).
  exists (report_of CLOSE bands bands bands), (percent_b_of CLOSE bands bands).
  split; [apply Run.main_aligned; [assumption|lia]|].
  assert (N : is_nan (percent_b_of CLOSE bands bands) = true).
  { unfold percent_b_of, percent_b, bands. rewrite back_repeat.
    apply Order.div_nan_r. reflexivity. }
  assert (R : (ratio_of bands bands bands >? 1.1) = false
              /\ (ratio_of bands bands bands <? 0.9) = false
              /\ (ratio_of bands bands bands >? 1.05) = false).
  { unfold ratio_of, bands. rewrite !back_repeat.
    destruct (5 <=? length (repeat nan (length CLOSE)))%nat;
      repeat split; reflexivity. }
  destruct R as (R1 & R2 & R3).
  split.
  { unfold report_of. cbn [rep_position]. unfold bands.
    rewrite !back_repeat. apply Position.position_undefined_bands. }
  split.
  { unfold report_of. cbn [rep_trend]. unfold bands.
    rewrite widths_undefined. unfold reference_width.
    rewrite !back_repeat, nth_repeat.
    destruct (5 <=? length (repeat nan (length CLOSE)))%nat; reflexivity. }
  split.
  { unfold report_of. cbn [rep_mid_trend]. unfold slope_of, bands.
    rewrite !back_repeat.
    destruct (5 <=? length (repeat nan (length CLOSE)))%nat; reflexivity. }
  split; [exact N|].
  rewrite Advisory.report_signals by assumption.
  unfold advice_of.
  rewrite Advisory.advise_degenerate;
    [|now apply Order.inf_or_nan_of_nan|exact R3].
  f_equal. unfold signals_of, width_signal. rewrite R1, R2.
  subst bands. unfold crossings_of. rewrite !back_repeat.
  rewrite crossing_undefined. cbn [positional app].
  rewrite (bucket_of_nan _ N), closes_above_undefined.
  reflexivity.
Qed.

Lemma undefined_bands_report_witness :
  (2 <= length [10; 10.5; 11]%float)%nat /\
  exists r pb,
    main [10; 10.5; 11] [nan; nan; nan] [nan; nan; nan] [nan; nan; nan] = Ok r /\
    rep_position r = BelowLower /\
    rep_trend r = Stable /\
    rep_mid_trend r = Flat /\
    is_nan pb = true /\
    rep_signals r
    = Signals [Positional NearLower pb; WeakContinuation 5] FollowTrend.
Proof.
  assert (L : (2 <= length [10; 10.5; 11]%float)%nat) by (simpl; lia).
  split; [exact L|].
  exact (undefined_bands_report [10; 10.5; 11] L).
Defined.

(** With a band of no width (latest upper band equal to latest lower band)
    percent-B is an infinity or a NaN, so the bucket is one of the two
    outer ones, never one of the four inside the channel: near-upper for
    plus infinity, near-lower for minus infinity and for NaN. *)
Theorem zero_width_bucket (price upper lower : float) :
  (upper =? lower) = true ->
  let pb := percent_b price upper lower in
  (is_nan pb = true /\ bucket_of pb = NearLower)
  \/ (is_infinity pb = true /\ (pb >? 0) = true /\ bucket_of pb = NearUpper)
  \/ (is_infinity pb = true /\ (pb <? 0) = true /\ bucket_of pb = NearLower).
Proof.
  intros E pb.
  pose proof (Advisory.percent_b_degenerate price upper lower E) as D.
  fold pb in D.
  unfold bucket_of, is_infinity.
  rewrite IEEEFacts.is_nan_spec, FloatAxioms.eqb_spec, abs_spec,
    !FloatAxioms.ltb_spec.
  destruct (Prim2SF pb) as [| [] | |]; try discriminate.
  - right. right. repeat split; reflexivity.
  - right. left. repeat split; reflexivity.
  - left. split; reflexivity.
Qed.

Lemma zero_width_bucket_witness :
  (10 =? 10) = true /\
  is_infinity (percent_b 10.01 10 10) = true /\
  bucket_of (percent_b 10.01 10 10) = NearUpper.
Proof.
  split; [reflexivity|].
  destruct (zero_width_bucket 10.01 10 10 eq_refl) as [[N _]|[(I & _ & B)|(_ & L & _)]].
  - discriminate N.
  - split; [exact I | exact B].
  - discriminate L.
Defined.

End Undefined.

(** ** The second script as a whole, and the two scripts side by side *)

Module Scripts.

Import IEEEFacts.
Local Open Scope float_scope.

Lemma realtime_trading_signals_aligned (CLOSE up mid lower : ndarray) :
  length mid = length CLOSE -> (2 <= length CLOSE)%nat ->
  Realtime.trading_signals CLOSE mid
    (back 1 CLOSE) (back 1 up) (back 1 mid) (back 1 lower)
  = Ok (realtime_signals_of CLOSE up mid lower).
Proof.
  intros Hm H. unfold Realtime.trading_signals. rewrite Run.len_ge2.
  destruct (Nat.leb_spec 2 (length CLOSE)); [|lia].
  rewrite (ArrayFacts.getitem_neg CLOSE 2) by (simpl; lia). cbn [bind].
  rewrite (ArrayFacts.getitem_neg mid 2) by (simpl; lia). reflexivity.
Qed.

Lemma realtime_trading_signals_single (CLOSE mid : ndarray) (p u m l : float) :
  (length CLOSE < 2)%nat ->
  Realtime.trading_signals CLOSE mid p u m l = Ok Realtime.DataShortage.
Proof.
  intros H. unfold Realtime.trading_signals. rewrite Run.len_ge2.
  destruct (Nat.leb_spec 2 (length CLOSE)); [lia|reflexivity].
Qed.

Lemma realtime_main_aligned (CLOSE up mid lower : ndarray) :
  aligned CLOSE up mid lower -> (1 <= length CLOSE)%nat ->
  Realtime.main CLOSE up mid lower = Ok (realtime_report_of CLOSE up mid lower).
Proof.
  intros A H. pose proof A as (Hu & Hm & Hl). unfold Realtime.main.
  rewrite (ArrayFacts.getitem_neg CLOSE 1) by (simpl; lia).
  rewrite (ArrayFacts.getitem_neg up 1) by (simpl; lia).
  rewrite (ArrayFacts.getitem_neg mid 1) by (simpl; lia).
  rewrite (ArrayFacts.getitem_neg lower 1) by (simpl; lia).
  cbn [bind].
  rewrite WidthAnalyzer.width_state_aligned by lia. cbn [bind fst snd].
  change Realtime.mid_slope with History.mid_slope.
  rewrite Run.mid_slope_nonempty by lia. cbn [bind].
  unfold realtime_report_of.
  destruct (Nat.leb_spec 2 (length CLOSE)).
  - rewrite realtime_trading_signals_aligned by (assumption || lia). reflexivity.
  - rewrite realtime_trading_signals_single by assumption. reflexivity.
Qed.

(** On aligned band arrays the second script raises exactly when the series
    is empty (the IndexError of line 22); otherwise it runs to the end,
    prints the data-shortage line of line 108 exactly when the series has a
    single bar, and reports the same region, width, width trend and midline
    trend as the first script does on the same arrays. *)
Theorem realtime_raises_iff_empty (CLOSE up mid lower : ndarray) :
  aligned CLOSE up mid lower ->
  (Realtime.main CLOSE up mid lower = Raise IndexError <-> CLOSE = []) /\
  (CLOSE <> [] ->
   exists r h,
     Realtime.main CLOSE up mid lower = Ok r /\
     History.main CLOSE up mid lower = Ok h /\
     (Realtime.rep_signals r = Realtime.DataShortage <-> length CLOSE = 1%nat) /\
     Realtime.rep_position r = History.rep_position h /\
     Realtime.rep_width r = History.rep_width h /\
     Realtime.rep_trend r = History.rep_trend h /\
     Realtime.rep_mid_trend r = History.rep_mid_trend h).
Proof.
  intros A. destruct CLOSE as [|c CLOSE].
  - split; [split; reflexivity|]. congruence.
  - assert (L : (1 <= length (c :: CLOSE))%nat) by (simpl; lia).
    pose proof (realtime_main_aligned _ _ _ _ A L) as E.
    split.
    + rewrite E. split; discriminate.
    + intros _.
      exists (realtime_report_of (c :: CLOSE) up mid lower),
        (report_of (c :: CLOSE) up mid lower).
      split; [exact E|]. split; [now apply Run.main_aligned|].
      split; [|repeat split].
      unfold realtime_report_of. cbn [Realtime.rep_signals].
      destruct (Nat.leb_spec 2 (length (c :: CLOSE))); split;
        intros; try discriminate; try reflexivity; lia.
Qed.

Lemma realtime_raises_iff_empty_witness :
  aligned [10.2] [nan] [nan] [nan] /\
  exists r h,
    Realtime.main [10.2] [nan] [nan] [nan] = Ok r /\
    History.main [10.2] [nan] [nan] [nan] = Ok h /\
    (Realtime.rep_signals r = Realtime.DataShortage <-> length [10.2] = 1%nat) /\
    Realtime.rep_position r = History.rep_position h /\
    Realtime.rep_width r = History.rep_width h /\
    Realtime.rep_trend r = History.rep_trend h /\
    Realtime.rep_mid_trend r = History.rep_mid_trend h.
Proof.
  assert (A : aligned [10.2] [nan] [nan] [nan]) by (repeat split; reflexivity).
  split; [exact A|].
  apply (proj2 (realtime_raises_iff_empty [10.2] [nan] [nan] [nan] A)).
  discriminate.
Defined.

Lemma band_lines_unmoved (pp cp cu cl : float) :
  band_line_signals (Realtime.band_signal pp cp cu cl)
  = History.band_crossing pp cu cl cp cu cl [].
Proof.
  unfold Realtime.band_signal, History.band_crossing.
  destruct ((pp <=? cu) && (cp >? cu))%bool; [reflexivity|].
  destruct ((pp >=? cu) && (cp <? cu))%bool; [reflexivity|].
  destruct ((pp >=? cl) && (cp <? cl))%bool; [reflexivity|].
  destruct ((pp <=? cl) && (cp >? cl))%bool; reflexivity.
Qed.

Lemma mid_lines_same (pp pm cp cm : float) :
  mid_line_signals (Realtime.mid_signal pp pm cp cm)
  = History.mid_crossing pp pm cp cm [].
Proof.
  unfold Realtime.mid_signal, History.mid_crossing.
  destruct ((pp <=? pm) && (cp >? cm))%bool; [reflexivity|].
  destruct ((pp >=? pm) && (cp <? cm))%bool; [reflexivity|].
  destruct (cp >? cm); reflexivity.
Qed.

(** The two scripts side by side on the same arrays of at least two bars:
    the midline message of the second script is a cross exactly when the
    first script appends the matching midline signal; and when the upper and
    the lower band did not move between the last two bars (the second
    script compares the previous close with the current bands, the first
    with the previous ones) the crossing signals of the first script are
    the band message and the midline message of the second. *)
Theorem scripts_agree_on_crossings (CLOSE up mid lower : ndarray) :
  aligned CLOSE up mid lower -> (2 <= length CLOSE)%nat ->
  exists h signals adv r a b c,
    History.main CLOSE up mid lower = Ok h /\
    History.rep_signals h = History.Signals signals adv /\
    Realtime.main CLOSE up mid lower = Ok r /\
    Realtime.rep_signals r = Realtime.Signals a b c /\
    (In History.MidBullish signals <-> b = Realtime.CrossUp) /\
    (In History.MidBearish signals <-> b = Realtime.CrossDown) /\
    (back 2 up = back 1 up -> back 2 lower = back 1 lower ->
     filter Spec.is_crossing signals
     = band_line_signals a ++ mid_line_signals b).
Proof.
  intros A H. pose proof A as (Hu & Hm & Hl).
  exists (report_of CLOSE up mid lower), (signals_of CLOSE up mid lower),
    (advice_of CLOSE up mid lower), (realtime_report_of CLOSE up mid lower).
  exists (Realtime.band_signal (back 2 CLOSE) (back 1 CLOSE) (back 1 up) (back 1 lower)),
    (Realtime.mid_signal (back 2 CLOSE) (back 2 mid) (back 1 CLOSE) (back 1 mid)),
    (Realtime.extreme_signal
       (Realtime.percent_b (back 1 CLOSE) (back 1 up) (back 1 lower))).
  split; [apply Run.main_aligned; [assumption|lia]|].
  split; [now apply Advisory.report_signals|].
  split; [apply realtime_main_aligned; [assumption|lia]|].
  split.
  { unfold realtime_report_of. cbn [Realtime.rep_signals].
    destruct (Nat.leb_spec 2 (length CLOSE)); [reflexivity|lia]. }
  assert (K : forall s, (s = History.MidBullish \/ s = History.MidBearish) ->
              (In s (signals_of CLOSE up mid lower)
               <-> In s (History.mid_crossing (back 2 CLOSE) (back 2 mid)
                           (back 1 CLOSE) (back 1 mid) []))).
  { intros s Hs.
    assert (C : Spec.is_crossing s = true) by (destruct Hs as [-> | ->]; reflexivity).
    split.
    - intros I.
      assert (I' : In s (filter Spec.is_crossing (signals_of CLOSE up mid lower)))
        by (apply filter_In; now split).
      rewrite Aggregator.crossings_kept in I'. unfold crossings_of in I'.
      rewrite Crossing.crossing_signals_split, in_app_iff in I'.
      destruct I' as [I'|I']; [|exact I'].
      apply Crossing.band_crossing_kinds in I'.
      destruct Hs as [-> | ->], I' as [I'|[I'|[I'|I']]]; discriminate.
    - intros I.
      assert (I' : In s (filter Spec.is_crossing (signals_of CLOSE up mid lower))).
      { rewrite Aggregator.crossings_kept. unfold crossings_of.
        rewrite Crossing.crossing_signals_split, in_app_iff. now right. }
      now apply filter_In in I'. }
  split; [|split].
  - rewrite (K History.MidBullish) by auto. rewrite <- mid_lines_same.
    destruct (Realtime.mid_signal _ _ _ _); cbn [mid_line_signals In];
      split; intros; try discriminate; try tauto;
      repeat match goal with H : _ \/ _ |- _ => destruct H end;
      try discriminate; try tauto.
  - rewrite (K History.MidBearish) by auto. rewrite <- mid_lines_same.
    destruct (Realtime.mid_signal _ _ _ _); cbn [mid_line_signals In];
      split; intros; try discriminate; try tauto;
      repeat match goal with H : _ \/ _ |- _ => destruct H end;
      try discriminate; try tauto.
  - intros Eu El. rewrite Aggregator.crossings_kept. unfold crossings_of.
    rewrite Crossing.crossing_signals_split, Eu, El.
    now rewrite band_lines_unmoved, mid_lines_same.
Qed.

Lemma scripts_agree_on_crossings_witness :
  aligned [9.9; 10.6] [10.5; 10.5] [10.25; 10.2] [9.9; 9.9] /\
  (2 <= length [9.9; 10.6]%float)%nat /\
  exists h signals adv r a b c,
    History.main [9.9; 10.6] [10.5; 10.5] [10.25; 10.2] [9.9; 9.9] = Ok h /\
    History.rep_signals h = History.Signals signals adv /\
    Realtime.main [9.9; 10.6] [10.5; 10.5] [10.25; 10.2] [9.9; 9.9] = Ok r /\
    Realtime.rep_signals r = Realtime.Signals a b c /\
    filter Spec.is_crossing signals = band_line_signals a ++ mid_line_signals b.
Proof.
  assert (A : aligned [9.9; 10.6] [10.5; 10.5] [10.25; 10.2] [9.9; 9.9])
    by (repeat split; reflexivity).
  assert (L : (2 <= length [9.9; 10.6]%float)%nat) by (simpl; lia).
  split; [exact A|]. split; [exact L|].
  destruct (scripts_agree_on_crossings _ _ _ _ A L)
    as (h & signals & adv & r & a & b & c & E1 & E2 & E3 & E4 & _ & _ & F).
  exists h, signals, adv, r, a, b, c.
  repeat (split; [assumption|]). apply F; reflexivity.
Defined.

(** The percent-B alert of the second script and the bucket of the first
    agree on the same percent-B: the near-upper alert (over 0.95) falls in
    the near-upper bucket, the near-lower alert (under 0.05) in the
    near-lower bucket, and the plain position line prints the percent-B it
    was given, which is then neither over 0.95 nor under 0.05. *)
Theorem extreme_alert_matches_bucket (percent_b : float) :
  (Realtime.extreme_signal percent_b = Realtime.NearUpperAlert ->
   History.bucket_of percent_b = History.NearUpper) /\
  (Realtime.extreme_signal percent_b = Realtime.NearLowerAlert ->
   History.bucket_of percent_b = History.NearLower) /\
  (forall x, Realtime.extreme_signal percent_b = Realtime.PositionEval x ->
             x = percent_b /\ (percent_b >? 0.95) = false
             /\ (percent_b <? 0.05) = false).
Proof.
  unfold Realtime.extreme_signal, History.bucket_of.
  pose proof (Order.ltb_trans 0.9 0.95 percent_b eq_refl) as U.
  pose proof (fun c L => Order.ltb_exclusive 0.05 c percent_b L) as Lo.
  pose proof (Lo 0.9 eq_refl) as L9. pose proof (Lo 0.7 eq_refl) as L7.
  pose proof (Lo 0.5 eq_refl) as L5. pose proof (Lo 0.3 eq_refl) as L3.
  pose proof (Lo 0.1 eq_refl) as L1. clear Lo.
  destruct (percent_b >? 0.95).
  - rewrite (U eq_refl). repeat split; intros; try discriminate; reflexivity.
  - destruct (percent_b <? 0.05).
    + rewrite (L9 eq_refl), (L7 eq_refl), (L5 eq_refl), (L3 eq_refl), (L1 eq_refl).
      repeat split; intros; try discriminate; reflexivity.
    + repeat split; intros; try discriminate; congruence.
Qed.

Lemma extreme_alert_matches_bucket_witness :
  Realtime.extreme_signal 0.97 = Realtime.NearUpperAlert /\
  History.bucket_of 0.97 = History.NearUpper.
Proof.
  split; [reflexivity|].
  apply (proj1 (extreme_alert_matches_bucket 0.97)). reflexivity.
Defined.

(** The lines of the second script agree with the region it reports: the
    break-up line comes with the region above the upper band, the
    fall-back line never does, the rebound line never comes with the region
    below the lower band, a midline line on the upper side (cross-up or
    running above) comes with one of the two upper regions, and a midline
    line on the lower side never with the upper-half region. *)
Theorem realtime_lines_match_position (CLOSE up mid lower : ndarray) :
  aligned CLOSE up mid lower -> (2 <= length CLOSE)%nat ->
  exists r a b c,
    Realtime.main CLOSE up mid lower = Ok r /\
    Realtime.rep_signals r = Realtime.Signals a b c /\
    (a = Realtime.BreakUp -> Realtime.rep_position r = AboveUpper) /\
    (a = Realtime.FallBack -> Realtime.rep_position r <> AboveUpper) /\
    (a = Realtime.Rebound -> Realtime.rep_position r <> BelowLower) /\
    (b = Realtime.CrossUp \/ b = Realtime.AboveMid ->
     Realtime.rep_position r = AboveUpper \/ Realtime.rep_position r = UpperHalf) /\
    (b = Realtime.CrossDown \/ b = Realtime.BelowMid ->
     Realtime.rep_position r <> UpperHalf).
Proof.
  intros A H.
  exists (realtime_report_of CLOSE up mid lower).
  exists (Realtime.band_signal (back 2 CLOSE) (back 1 CLOSE) (back 1 up) (back 1 lower)),
    (Realtime.mid_signal (back 2 CLOSE) (back 2 mid) (back 1 CLOSE) (back 1 mid)),
    (Realtime.extreme_signal
       (Realtime.percent_b (back 1 CLOSE) (back 1 up) (back 1 lower))).
  split; [apply realtime_main_aligned; [assumption|lia]|].
  split.
  { unfold realtime_report_of. cbn [Realtime.rep_signals].
    destruct (Nat.leb_spec 2 (length CLOSE)); [reflexivity|lia]. }
  unfold realtime_report_of. cbn [Realtime.rep_position].
  unfold Realtime.position, Realtime.band_signal, Realtime.mid_signal.
  set (p := back 1 CLOSE). set (u := back 1 up).
  set (m := back 1 mid). set (l := back 1 lower).
  set (q := back 2 CLOSE). set (qm := back 2 mid).
  pose proof (ltb_antisym p u) as Au. pose proof (ltb_antisym u p) as Au'.
  pose proof (ltb_antisym p m) as Am. pose proof (ltb_antisym m p) as Am'.
  pose proof (ltb_antisym p l) as Al. pose proof (ltb_antisym l p) as Al'.
  destruct (p >? u), (p <? u), (p >? m), (p <? m), (p >? l), (p <? l);
    try (specialize (Au eq_refl); discriminate);
    try (specialize (Am eq_refl); discriminate);
    try (specialize (Al eq_refl); discriminate);
    clear Au Au' Am Am' Al Al';
    destruct (q <=? u), (u <=? q), (q <=? l), (l <=? q), (q <=? qm), (qm <=? q);
    cbn [andb]; repeat split; intros;
    repeat match goal with H : _ \/ _ |- _ => destruct H end;
    try discriminate; auto.
Qed.

Lemma realtime_lines_match_position_witness :
  aligned [9.9; 10.6] [10.5; 10.5] [10.25; 10.2] [9.9; 9.9] /\
  (2 <= length [9.9; 10.6]%float)%nat /\
  exists r a b c,
    Realtime.main [9.9; 10.6] [10.5; 10.5] [10.25; 10.2] [9.9; 9.9] = Ok r /\
    Realtime.rep_signals r = Realtime.Signals a b c /\
    a = Realtime.BreakUp /\ Realtime.rep_position r = AboveUpper.
Proof.
  assert (A : aligned [9.9; 10.6] [10.5; 10.5] [10.25; 10.2] [9.9; 9.9])
    by (repeat split; reflexivity).
  assert (L : (2 <= length [9.9; 10.6]%float)%nat) by (simpl; lia).
  split; [exact A|]. split; [exact L|].
  destruct (realtime_lines_match_position _ _ _ _ A L)
    as (r & a & b & c & E & S & B & _).
  exists r, a, b, c. split; [exact E|]. split; [exact S|].
  assert (Ea : a = Realtime.BreakUp).
  { rewrite realtime_main_aligned in E by (assumption || (simpl; lia)).
    injection E as <-. vm_compute in S. congruence. }
  split; [exact Ea | exact (B Ea)].
Defined.

End Scripts.

(** ** The midline trend *)

Module Midline.

Import History.
Local Open Scope float_scope.

Lemma mid_trend_flat (mid : ndarray) :
  (length mid < 5)%nat
  \/ (back 1 mid =? back 5 mid) = true
  \/ is_nan (back 1 mid) = true
  \/ is_nan (back 5 mid) = true ->
  mid_trend (slope_of mid) = Flat.
Proof.
  unfold slope_of, mid_trend. intros [H|[H|[H|H]]].
  - destruct (Nat.leb_spec 5 (length mid)); [lia|reflexivity].
  - destruct (5 <=? length mid)%nat; [|reflexivity].
    destruct (Order.zero_or_nan_sign _ (Degenerate.sub_equal _ _ H)) as [-> ->].
    reflexivity.
  - destruct (5 <=? length mid)%nat; [|reflexivity].
    pose proof (Order.sub_nan_l _ (back 5 mid) H) as N.
    now rewrite (Order.ltb_nan_r _ _ N), (Order.ltb_nan_l _ _ N).
  - destruct (5 <=? length mid)%nat; [|reflexivity].
    pose proof (Order.sub_nan_r (back 1 mid) _ H) as N.
    now rewrite (Order.ltb_nan_r _ _ N), (Order.ltb_nan_l _ _ N).
Qed.

(** Both scripts report a flat midline whenever there are fewer than five
    bars, or the middle band has the same value at the latest bar and four
    bars earlier, or one of these two values is still undefined (NaN). *)
Theorem midline_flat (CLOSE up mid lower : ndarray) :
  aligned CLOSE up mid lower -> (1 <= length CLOSE)%nat ->
  (length mid < 5)%nat
  \/ (back 1 mid =? back 5 mid) = true
  \/ is_nan (back 1 mid) = true
  \/ is_nan (back 5 mid) = true ->
  exists h r,
    main CLOSE up mid lower = Ok h /\ rep_mid_trend h = Flat /\
    Realtime.main CLOSE up mid lower = Ok r /\ Realtime.rep_mid_trend r = Flat.
Proof.
  intros A H F.
  exists (report_of CLOSE up mid lower), (realtime_report_of CLOSE up mid lower).
  split; [now apply Run.main_aligned|].
  split; [now apply mid_trend_flat|].
  split; [now apply Scripts.realtime_main_aligned|].
  now apply mid_trend_flat.
Qed.

Lemma midline_flat_witness :
  aligned [10; 10.5; 11] [nan; nan; nan] [nan; nan; nan] [nan; nan; nan] /\
  (1 <= length [10; 10.5; 11]%float)%nat /\
  exists h r,
    main [10; 10.5; 11] [nan; nan; nan] [nan; nan; nan] [nan; nan; nan] = Ok h /\
    rep_mid_trend h = Flat /\
    Realtime.main [10; 10.5; 11] [nan; nan; nan] [nan; nan; nan] [nan; nan; nan]
    = Ok r /\
    Realtime.rep_mid_trend r = Flat.
Proof.
  assert (A : aligned [10; 10.5; 11] [nan; nan; nan] [nan; nan; nan] [nan; nan; nan])
    by (repeat split; reflexivity).
  assert (L : (1 <= length [10; 10.5; 11]%float)%nat) by (simpl; lia).
  split; [exact A|]. split; [exact L|].
  apply (midline_flat _ _ _ _ A L). left. simpl. lia.
Defined.

(** An instance of the agreement of the continuation signal with the
    counts of closes above and below the band, on five bars without ties. *)
Lemma persistence_without_ties_witness :
  length [10; 10; 10; 10; 10]%float = length [9; 10.5; 11; 12; 10.5]%float /\
  filter Spec.is_persistence
    (signals_of [9; 10.5; 11; 12; 10.5] [11; 11; 11; 11; 11]
                [10; 10; 10; 10; 10] [9; 9; 9; 9; 9])
  = [StrongContinuation 4].
Proof.
  split; [reflexivity|].
  rewrite (Persistence.persistence_without_ties
             [9; 10.5; 11; 12; 10.5] [11; 11; 11; 11; 11]
             [10; 10; 10; 10; 10] [9; 9; 9; 9; 9]).
  - reflexivity.
  - reflexivity.
  - simpl. lia.
  - repeat constructor.
Defined.

End Midline.
